(** * SCSI hard disk (RaSCSI [scsihd.cpp]): shallow embedding and properties

    The development follows [src/raspberrypi/devices/scsihd.cpp]:
    - [SCSIHD::Reset]       lines 44-53
    - [SCSIHD::Open]        lines 60-116
    - [SCSIHD::Inquiry]     lines 123-173
    - [SCSIHD::ModeSelect]  lines 181-255

    Machine integers are [Z] with their wrap-around written out, bytes are
    [Byte.byte], a [const BYTE *] is the view [Z -> byte] of the memory at and
    after the pointer, and the device object is a record that every method
    takes and returns. *)

From Stdlib Require Import ZArith List String Ascii Bool Lia.
From Stdlib.Strings Require Import Byte.
From Stdlib Require Import DecimalString DecimalZ DecimalPos.
Import ListNotations.

Local Open Scope string_scope.
Local Open Scope list_scope.
Local Open Scope Z_scope.

(** ** Machine integers and bytes *)

Module Mach.

(** [(DWORD)x]: truncation to an unsigned 32-bit integer. *)
Definition to_DWORD (x : Z) : Z := x mod 2 ^ 32.

(** [(int)x]: conversion to a signed 32-bit integer (two's complement). *)
Definition to_int (x : Z) : Z := (x + 2 ^ 31) mod 2 ^ 32 - 2 ^ 31.

(** Value of a [BYTE] once promoted to [int]. *)
Definition b2z (b : byte) : Z := Z.of_N (Byte.to_N b).

(** [(BYTE)x]: truncation of an integer to its low eight bits. *)
Definition z2b (x : Z) : byte :=
  match Byte.of_N (Z.to_N (x mod 256)) with
  | Some b => b
  | None => x00
  end.

(** Memory seen through a byte pointer: offset to byte. *)
Definition mem := Z -> byte.

(** The memory holding the bytes of [l] from offset 0 on (zero elsewhere);
    used to write concrete buffers. *)
Definition bytes (l : list Z) : mem :=
  fun o => if o <? 0 then x00 else z2b (nth (Z.to_nat o) l 0).

(** [p[i] = v]. *)
Definition store (p : mem) (i : Z) (v : byte) : mem :=
  fun o => if o =? i then v else p o.

(** [memset(p, v, n)]. *)
Definition memset (p : mem) (v : byte) (n : Z) : mem :=
  fun o => if (0 <=? o) && (o <? n) then v else p o.

(** [memcpy(&p[at], src, n)]. *)
Definition memcpy (p : mem) (at_ : Z) (src : mem) (n : Z) : mem :=
  fun o => if (at_ <=? o) && (o <? at_ + n) then src (o - at_) else p o.

(** [s.c_str()]: the characters of [s] followed by the terminating NUL. *)
Definition c_str (s : string) : mem :=
  fun o =>
    if o <? 0 then x00
    else match String.get (Z.to_nat o) s with
         | Some c => byte_of_ascii c
         | None => x00
         end.

End Mach.

Import Mach.

(** ** The device object *)

(** Modelled from the spec: the status codes, whose constants are declared
    outside this file; the four that this file passes to [SetStatusCode]. *)
Inductive StatusCode : Type :=
| STATUS_NOERROR
| STATUS_NOTREADY
| STATUS_INVALIDCDB
| STATUS_INVALIDPRM.

(** Modelled from the spec: the device object, whose class is declared
    outside this file; the state that [scsihd.cpp] reads or writes through
    the base classes.  [size] and [blocks] are [disk.size] (the sector size
    exponent) and [disk.blocks] (a [DWORD]). *)
Record Disk : Type := mkDisk {
  ready : bool;
  locked : bool;
  attn : bool;
  reset : bool;
  status_code : StatusCode;
  size : Z;
  blocks : Z;
  vendor : string;
  product : string;
  revision : string;
  protect : bool;
  lun : Z;
  diskpath : option string
}.

(** Modelled from the spec: [SetLocked], declared outside this file; it
    overwrites the lock flag. *)
Definition SetLocked (v : bool) (d : Disk) : Disk :=
  mkDisk (ready d) v (attn d) (reset d) (status_code d) (size d) (blocks d)
         (vendor d) (product d) (revision d) (protect d) (lun d) (diskpath d).

(** Modelled from the spec: [SetAttn], declared outside this file; it
    overwrites the attention flag. *)
Definition SetAttn (v : bool) (d : Disk) : Disk :=
  mkDisk (ready d) (locked d) v (reset d) (status_code d) (size d) (blocks d)
         (vendor d) (product d) (revision d) (protect d) (lun d) (diskpath d).

(** Modelled from the spec: [SetReset], declared outside this file; it
    overwrites the pending-reset flag. *)
Definition SetReset (v : bool) (d : Disk) : Disk :=
  mkDisk (ready d) (locked d) (attn d) v (status_code d) (size d) (blocks d)
         (vendor d) (product d) (revision d) (protect d) (lun d) (diskpath d).

(** Modelled from the spec: [SetStatusCode], declared outside this file; it
    overwrites the status of the last command. *)
Definition SetStatusCode (v : StatusCode) (d : Disk) : Disk :=
  mkDisk (ready d) (locked d) (attn d) (reset d) v (size d) (blocks d)
         (vendor d) (product d) (revision d) (protect d) (lun d) (diskpath d).

(** The assignment [disk.size = v]. *)
Definition set_size (v : Z) (d : Disk) : Disk :=
  mkDisk (ready d) (locked d) (attn d) (reset d) (status_code d) v (blocks d)
         (vendor d) (product d) (revision d) (protect d) (lun d) (diskpath d).

(** The assignment [disk.blocks = v]. *)
Definition set_blocks (v : Z) (d : Disk) : Disk :=
  mkDisk (ready d) (locked d) (attn d) (reset d) (status_code d) (size d) v
         (vendor d) (product d) (revision d) (protect d) (lun d) (diskpath d).

(** Modelled from the spec: [SetProduct(product, false)], declared outside
    this file; the derived name becomes the product identity field. *)
Definition SetProduct (v : string) (d : Disk) : Disk :=
  mkDisk (ready d) (locked d) (attn d) (reset d) (status_code d) (size d)
         (blocks d) (vendor d) v (revision d) (protect d) (lun d) (diskpath d).

(** Modelled from the spec: [Disk::Open(path)], declared outside this file;
    it marks the device ready. *)
Definition Disk_Open (d : Disk) : Disk :=
  mkDisk true (locked d) (attn d) (reset d) (status_code d) (size d)
         (blocks d) (vendor d) (product d) (revision d) (protect d) (lun d)
         (diskpath d).

(** Modelled from the spec: [FileSupport::SetPath(path)], declared outside
    this file; it records the backing path. *)
Definition SetPath (p : string) (d : Disk) : Disk :=
  mkDisk (ready d) (locked d) (attn d) (reset d) (status_code d) (size d)
         (blocks d) (vendor d) (product d) (revision d) (protect d) (lun d)
         (Some p).

(** Modelled from the spec: [IsReady], declared outside this file; true once
    a backing store has been opened. *)
Definition IsReady (d : Disk) : bool := ready d.

(** Modelled from the spec: [GetLun], declared outside this file; the
    logical unit assigned to the device. *)
Definition GetLun (d : Disk) : Z := lun d.

(** ** [SCSIHD::Reset] *)

Definition Reset (d : Disk) : Disk :=
  SetStatusCode STATUS_NOERROR (SetReset false (SetAttn false (SetLocked false d))).

(** ** [SCSIHD::Open] *)

(** The exception thrown by [Open], with its message. *)
Inductive ioexception : Type :=
| IoException (msg : string).

(** The backing stores as [Fileio] sees them: [fs path] is [None] when the
    file cannot be opened read-only and [Some n] when it can and
    [GetFileSize] returns [n] (an [off64_t]). *)
Definition Fileio := string -> option Z.

(** [sprintf("%d", n)]. *)
Definition dec (n : Z) : string := NilZero.string_of_int (Z.to_int n).

(** Lines 92-111: the default product name for a capacity. *)
Definition product_name (capacity : Z) : string :=
  if capacity <? 300 then
    ("PRODRIVE LPS" ++ dec capacity ++ "S")%string
  else if capacity <? 600 then
    ("MAVERICK" ++ dec capacity ++ "S")%string
  else if capacity <? 800 then
    ("LIGHTNING" ++ dec capacity ++ "S")%string
  else if capacity <? 1000 then
    ("TRAILBRAZER" ++ dec capacity ++ "S")%string
  else if capacity <? 2000 then
    ("FIREBALL" ++ dec capacity ++ "S")%string
  else
    ("FBSE" ++ dec (capacity / 1000) ++ "."
            ++ dec ((capacity mod 1000) / 100) ++ "S")%string.

(** The 2 TB ceiling of line 82. *)
Definition max_size : Z := 2 * 1024 * 1024 * 1024 * 1024.

(** [Open] returns the device object together with the exception thrown, if
    any; a throw happens before the object is touched. *)
Definition Open (fs : Fileio) (path : string) (d : Disk)
  : Disk * option ioexception :=
  match fs path with
  | None => (d, Some (IoException "Can't open hard disk file read-only"))
  | Some sz =>
      if negb (Z.land sz 511 =? 0) then
        (d, Some (IoException "File size must be a multiple of 512 bytes"))
      else if sz >? max_size then
        (d, Some (IoException "File size must not exceed 2 TB"))
      else
        let d1 := set_size 9 d in
        let d2 := set_blocks (to_DWORD (Z.shiftr sz 9)) d1 in
        let capacity := Z.shiftr (blocks d2) 11 in
        let d3 := SetProduct (product_name capacity) d2 in
        let d4 := Disk_Open d3 in
        (SetPath path d4, None)
  end.

(** ** [SCSIHD::Inquiry] *)

(** A [const DWORD *cdb]: index to 32-bit word. *)
Definition cdb_t := Z -> Z.

(** The command descriptor holding the words of [l] from index 0 on; used to
    write concrete descriptors. *)
Definition dwords (l : list Z) : cdb_t :=
  fun i => if i <? 0 then 0 else to_DWORD (nth (Z.to_nat i) l 0).

Section Identify.

(** [GetPaddedName] belongs to the base class and is declared outside this
    file: the padded vendor, product and revision of the device. *)
Variable GetPaddedName : Disk -> string.

(** [Inquiry] returns the size, the response buffer and the device object.
    The arguments [major] and [minor] are not used by the body. *)
Definition Inquiry (d : Disk) (cdb : cdb_t) (buf : mem) : Z * mem * Disk :=
  if negb (Z.land (cdb 1) 1 =? 0) then
    (0, buf, SetStatusCode STATUS_INVALIDCDB d)
  else if negb (IsReady d) then
    (0, buf, SetStatusCode STATUS_NOTREADY d)
  else
    let buf := memset buf x00 8 in
    let buf :=
      if negb (Z.land (Z.shiftr (cdb 1) 5) 7 =? GetLun d)
      then store buf 0 x7f else buf in
    let buf := store buf 2 x02 in
    let buf := store buf 3 x02 in
    let buf := store buf 4 (z2b (122 + 3)) in
    let name := GetPaddedName d in
    let buf := memcpy buf 8 (c_str name) 28 in
    let size := b2z (buf 4) + 5 in
    let size := if size >? to_int (cdb 4) then to_int (cdb 4) else size in
    (size, buf, SetStatusCode STATUS_NOERROR d).

End Identify.

(** ** [SCSIHD::ModeSelect] *)

(** What a run of [ModeSelect] does besides returning: the reads of the
    parameter buffer, by offset from the pointer passed in, and the lines it
    logs or prints. *)
Inductive event : Type :=
| Read (o : Z)
| LogWarnPage8 (length : Z)
| PrintHex (b : byte)
| PrintNewline
| PrintUnknownPage (page : byte).

(** The offsets of the buffer reads of a trace, in order. *)
Fixpoint reads (tr : list event) : list Z :=
  match tr with
  | [] => []
  | Read o :: tr' => o :: reads tr'
  | _ :: tr' => reads tr'
  end.

(** [1 << disk.size], an [int]. *)
Definition sector_size (d : Disk) : Z := to_int (Z.shiftl 1 (size d)).

(** Lines 194-201: the block length check of the mode parameter header;
    [||] evaluates its operands left to right and stops at the first that
    holds. *)
Definition check_header (d : Disk) (buf : mem) : bool * list event :=
  let size := sector_size d in
  if negb (Byte.eqb (buf 9) (z2b (Z.shiftr size 16))) then
    (false, [Read 9])
  else if negb (Byte.eqb (buf 10) (z2b (Z.shiftr size 8))) then
    (false, [Read 9; Read 10])
  else if negb (Byte.eqb (buf 11) (z2b size)) then
    (false, [Read 9; Read 10; Read 11])
  else
    (true, [Read 9; Read 10; Read 11]).

(** Lines 232-235: the dump of the [length] bytes from the cursor [off]. *)
Definition dump (buf : mem) (off length : Z) : list event :=
  flat_map (fun i => [Read (off + Z.of_nat i); PrintHex (buf (off + Z.of_nat i))])
           (seq 0 (Z.to_nat length)).

(** Lines 209-242: the [switch] on the page code of the page at the cursor
    [off], with [length] bytes remaining; [false] is the [return FALSE]. *)
Definition check_page (d : Disk) (buf : mem) (off length : Z)
  : bool * list event :=
  let page := buf off in
  if Byte.eqb page x03 then
    let size := sector_size d in
    if negb (Byte.eqb (buf (off + 12)) (z2b (Z.shiftr size 8))) then
      (false, [Read off; Read (off + 12)])
    else if negb (Byte.eqb (buf (off + 13)) (z2b size)) then
      (false, [Read off; Read (off + 12); Read (off + 13)])
    else
      (true, [Read off; Read (off + 12); Read (off + 13)])
  else if Byte.eqb page x08 then
    (true, Read off :: LogWarnPage8 length :: dump buf off length ++ [PrintNewline])
  else
    (true, [Read off; PrintUnknownPage page]).

(** One iteration of the [while] loop of lines 207-248. *)
Inductive step : Type :=
| Next (off length : Z) (ev : list event)
| Abort (ev : list event).

Definition page_step (d : Disk) (buf : mem) (off length : Z) : step :=
  let (ok, ev) := check_page d buf off length in
  if ok then
    let size := b2z (buf (off + 1)) + 2 in
    Next (off + size) (length - size) (ev ++ [Read (off + 1)])
  else
    Abort ev.

(** The [while (length > 0)] loop; [None] when [fuel] iterations do not
    reach its end. *)
Fixpoint parse_pages (fuel : nat) (d : Disk) (buf : mem) (off length : Z)
  : option (bool * list event) :=
  if length >? 0 then
    match fuel with
    | O => None
    | S fuel' =>
        match page_step d buf off length with
        | Abort ev => Some (false, ev)
        | Next off' length' ev =>
            match parse_pages fuel' d buf off' length' with
            | Some (r, ev') => Some (r, ev ++ ev')
            | None => None
            end
        end
    end
  else
    Some (true, []).

(** What [ModeSelect] returns: the [BOOL], the device object and the trace. *)
Record outcome : Type := mkOutcome {
  ret : bool;
  dev : Disk;
  trace : list event
}.

(** [ModeSelect]; the loop is given [length] iterations, its remaining length
    at entry (see [parse_pages_total]). *)
Definition ModeSelect (d : Disk) (cdb : cdb_t) (buf : mem) (length : Z)
  : option outcome :=
  if negb (Z.land (cdb 1) 16 =? 0) then
    let '(ok, ev, off, len) :=
      if length >=? 12 then
        let (ok, ev) := check_header d buf in (ok, ev, 12, length - 12)
      else (true, [], 0, length) in
    if ok then
      match parse_pages (Z.to_nat len) d buf off len with
      | Some (true, ev') =>
          Some (mkOutcome true (SetStatusCode STATUS_NOERROR d) (ev ++ ev'))
      | Some (false, ev') =>
          Some (mkOutcome false (SetStatusCode STATUS_INVALIDPRM d) (ev ++ ev'))
      | None => None
      end
    else
      Some (mkOutcome false (SetStatusCode STATUS_INVALIDPRM d) ev)
  else
    Some (mkOutcome true (SetStatusCode STATUS_NOERROR d) []).

(** ** The layout of a mode parameter list *)

(** Big-endian values of two and three bytes. *)
Definition be16 (hi lo : byte) : Z := b2z hi * 256 + b2z lo.
Definition be24 (b2 b1 b0 : byte) : Z := (b2z b2 * 256 + b2z b1) * 256 + b2z b0.

(** The pages of a parameter list by the layout alone: a page starts at the
    cursor, its second byte is its length, and it occupies that length plus
    two bytes; the next page follows while bytes remain. *)
Fixpoint page_starts (fuel : nat) (buf : mem) (off length : Z) : list Z :=
  match fuel with
  | O => []
  | S fuel' =>
      if length >? 0 then
        off :: page_starts fuel' buf (off + (b2z (buf (off + 1)) + 2))
                           (length - (b2z (buf (off + 1)) + 2))
      else []
  end.

(** The page offsets of a parameter list of [length] bytes: after the
    12-byte header when the list has one. *)
Definition pages (buf : mem) (length : Z) : list Z :=
  if length >=? 12 then page_starts (Z.to_nat (length - 12)) buf 12 (length - 12)
  else page_starts (Z.to_nat length) buf 0 length.

(** ** Inputs of the examples *)

(** A device before [Open]: not ready, write-protected (the constructor of
    line 36), sector size exponent 9, no product name yet. *)
Definition fresh : Disk :=
  mkDisk false false false false STATUS_NOERROR 9 0 "" "" "" true 0 None.

(** The same device once opened on a 40 MB image. *)
Definition opened : Disk :=
  fst (Open (fun _ => Some (40 * 2 ^ 20)) "hd.hds" fresh).

(** A MODE SELECT(6) descriptor with the PF bit set and the given parameter
    list length. *)
Definition pf_cdb (length : Z) : cdb_t := dwords [0x15; 0x10; 0; 0; length; 0].

(** A parameter list for a 512-byte sector device: the header, a page 0x03,
    a page of unknown code 0x55, a page 0x08 and a second page 0x03. *)
Definition tolerant_list : list Z :=
  [0; 0; 0; 8; 0; 0; 0; 0; 0; 0; 2; 0] ++
  [3; 22; 0; 0; 0; 0; 0; 0; 0; 0; 0; 0; 2; 0; 0; 0; 0; 0; 0; 0; 0; 0; 0; 0] ++
  [0x55; 1; 7] ++
  [8; 2; 1; 1] ++
  [3; 22; 0; 0; 0; 0; 0; 0; 0; 0; 0; 0; 2; 0; 0; 0; 0; 0; 0; 0; 0; 0; 0; 0].

(** A parameter list made of a header for 512-byte sectors and no page. *)
Definition header_only : list Z := [0; 0; 0; 8; 0; 0; 0; 0; 0; 0; 2; 0].

(** A parameter list with a header for 512-byte sectors, a page 0x03 for
    1024-byte sectors and a page 0x08. *)
Definition rejected_list : list Z :=
  [0; 0; 0; 8; 0; 0; 0; 0; 0; 0; 2; 0] ++
  [3; 22; 0; 0; 0; 0; 0; 0; 0; 0; 0; 0; 4; 0; 0; 0; 0; 0; 0; 0; 0; 0; 0; 0] ++
  [8; 2; 1; 1].

(** ** Sequences of calls *)

(** A call of one of the methods that an opened device receives, with its
    arguments. *)
Inductive call : Type :=
| CallReset
| CallInquiry (cdb : cdb_t) (buf : mem)
| CallModeSelect (cdb : cdb_t) (buf : mem) (length : Z).

Section Calls.

Variable GetPaddedName : Disk -> string.

(** The device object after a call. *)
Definition after_call (d : Disk) (c : call) : Disk :=
  match c with
  | CallReset => Reset d
  | CallInquiry cdb buf => snd (Inquiry GetPaddedName d cdb buf)
  | CallModeSelect cdb buf length =>
      match ModeSelect d cdb buf length with
      | Some o => dev o
      | None => d
      end
  end.

(** The device object after a sequence of calls, first to last. *)
Definition after_calls (cs : list call) (d : Disk) : Disk :=
  fold_left after_call cs d.

End Calls.

(** The fields that no call changes. *)
Definition same_setup (d d' : Disk) : Prop :=
  ready d' = ready d /\ size d' = size d /\ blocks d' = blocks d /\
  vendor d' = vendor d /\ product d' = product d /\
  revision d' = revision d /\ protect d' = protect d /\ lun d' = lun d /\
  diskpath d' = diskpath d.

(** * Properties *)

(** Case analysis on every negated byte comparison of the goal. *)
Ltac case_negb :=
  repeat match goal with
         | |- context [negb ?b] => destruct b; cbn [negb]
         end.

(** ** Bytes *)

Lemma b2z_range (b : byte) : 0 <= b2z b < 256.
Proof.
  unfold b2z. pose proof (Byte.to_N_bounded b). lia.
Qed.

Lemma z2b_b2z (b : byte) : z2b (b2z b) = b.
Proof.
  unfold z2b. rewrite Z.mod_small by apply b2z_range.
  unfold b2z. rewrite N2Z.id, Byte.of_to_N. reflexivity.
Qed.

Lemma b2z_z2b (x : Z) : b2z (z2b x) = x mod 256.
Proof.
  unfold z2b, b2z.
  assert (Hr : 0 <= x mod 256 < 256) by (apply Z.mod_pos_bound; lia).
  destruct (Byte.of_N (Z.to_N (x mod 256))) as [b|] eqn:E.
  - apply Byte.to_of_N in E. rewrite E. lia.
  - apply Byte.of_N_None_iff in E. lia.
Qed.

Lemma b2z_inj (a b : byte) : b2z a = b2z b -> a = b.
Proof.
  intros H. rewrite <- (z2b_b2z a), <- (z2b_b2z b), H. reflexivity.
Qed.

Lemma byte_eqb_true (a b : byte) : Byte.eqb a b = true <-> a = b.
Proof.
  split; [apply Byte.byte_dec_bl | apply Byte.byte_dec_lb].
Qed.

Lemma byte_eqb_false (a b : byte) : Byte.eqb a b = false <-> a <> b.
Proof.
  split.
  - apply Byte.eqb_false.
  - intros H. destruct (Byte.eqb a b) eqn:E; [|reflexivity].
    apply byte_eqb_true in E. contradiction.
Qed.

(** ** Reset *)

(** C9: [Reset] clears [locked], [attn] and [reset], sets the status code to
    [STATUS_NOERROR], leaves every other field as it was ([ready], [size],
    [blocks] and the product identity among them), and a second [Reset]
    changes nothing more. *)
Theorem Reset_idempotent (d : Disk) :
  locked (Reset d) = false /\
  attn (Reset d) = false /\
  reset (Reset d) = false /\
  status_code (Reset d) = STATUS_NOERROR /\
  ready (Reset d) = ready d /\
  size (Reset d) = size d /\
  blocks (Reset d) = blocks d /\
  vendor (Reset d) = vendor d /\
  product (Reset d) = product d /\
  revision (Reset d) = revision d /\
  protect (Reset d) = protect d /\
  lun (Reset d) = lun d /\
  diskpath (Reset d) = diskpath d /\
  Reset (Reset d) = Reset d.
Proof.
  repeat split.
Qed.

(** ** Open *)

Lemma land_511 (sz : Z) : Z.land sz 511 = sz mod 512.
Proof.
  change 511 with (Z.ones 9). rewrite Z.land_ones by lia. reflexivity.
Qed.

Lemma max_size_eq : max_size = 2 ^ 41.
Proof. reflexivity. Qed.

(** What [Open] returns when it does not throw. *)
Lemma Open_success (fs : Fileio) (path : string) (d d' : Disk) :
  Open fs path d = (d', None) ->
  exists sz,
    fs path = Some sz /\ sz mod 512 = 0 /\ sz <= 2 ^ 41 /\
    d' = SetPath path (Disk_Open
           (SetProduct (product_name (Z.shiftr (to_DWORD (Z.shiftr sz 9)) 11))
              (set_blocks (to_DWORD (Z.shiftr sz 9)) (set_size 9 d)))).
Proof.
  unfold Open. destruct (fs path) as [sz|]; [|discriminate].
  rewrite land_511, Z.gtb_ltb, max_size_eq.
  destruct (Z.eqb_spec (sz mod 512) 0) as [Hm|Hm]; cbn [negb]; [|discriminate].
  destruct (Z.ltb_spec (2 ^ 41) sz) as [Hs|Hs]; [discriminate|].
  intros H. inversion H; subst. exists sz. repeat split; auto.
Qed.

(** A successful [Open] leaves the sector size exponent at 9 and the device
    ready. *)
Lemma Open_size (fs : Fileio) (path : string) (d d' : Disk) :
  Open fs path d = (d', None) -> size d' = 9 /\ ready d' = true.
Proof.
  intros H. apply Open_success in H. destruct H as (sz & _ & _ & _ & ->).
  split; reflexivity.
Qed.

(** Below the ceiling the block count is the byte size over 512. *)
Lemma Open_blocks_below_ceiling (fs : Fileio) (path : string) (d : Disk) (sz : Z) :
  fs path = Some sz -> sz mod 512 = 0 -> 0 <= sz < 2 ^ 41 ->
  snd (Open fs path d) = None /\
  ready (fst (Open fs path d)) = true /\
  size (fst (Open fs path d)) = 9 /\
  blocks (fst (Open fs path d)) = sz / 512.
Proof.
  intros Hfs Hm Hr. unfold Open. rewrite Hfs, land_511, Hm, Z.gtb_ltb, max_size_eq.
  simpl negb. cbv iota.
  destruct (Z.ltb_spec (2 ^ 41) sz) as [Hs|Hs]; [lia|].
  cbn [fst snd]. repeat split.
  change (to_DWORD (Z.shiftr sz 9) = sz / 512). unfold to_DWORD. rewrite Z.shiftr_div_pow2 by lia.
  change (2 ^ 9) with 512. apply Z.mod_small.
  split; [apply Z.div_pos; lia|].
  apply Z.div_lt_upper_bound; lia.
Qed.

(** C1: at the ceiling itself, a byte size of 2^41 (a multiple of 512 that
    does not exceed 2^41), [Open] succeeds and sets [size] to 9, but the
    block count stored is 0 while the byte size over 512 is 2^32. *)
Theorem Open_ceiling_blocks_wrap (path : string) (d : Disk) :
  let sz := 2 ^ 41 in
  let r := Open (fun _ => Some sz) path d in
  sz mod 512 = 0 /\ sz <= 2 ^ 41 /\
  snd r = None /\ ready (fst r) = true /\ size (fst r) = 9 /\
  blocks (fst r) = 0 /\ sz / 512 = 2 ^ 32 /\ blocks (fst r) <> sz / 512.
Proof.
  cbv zeta.
  repeat (split; [first [reflexivity | vm_compute; discriminate] |]).
  vm_compute. discriminate.
Qed.

(** C6: when the backing store cannot be opened read-only, or its byte size
    is not a multiple of 512 or exceeds 2^41, [Open] throws and the device
    object is the one it was given; a device that was not ready is still not
    ready. *)
Theorem Open_rejects (fs : Fileio) (path : string) (d : Disk) :
  (fs path = None \/
   exists sz, fs path = Some sz /\ (sz mod 512 <> 0 \/ sz > 2 ^ 41)) ->
  (exists msg, Open fs path d = (d, Some (IoException msg))) /\
  fst (Open fs path d) = d /\
  (ready d = false -> ready (fst (Open fs path d)) = false).
Proof.
  intros H.
  assert (E : exists msg, Open fs path d = (d, Some (IoException msg))).
  { unfold Open. destruct H as [H | (sz & H & Hsz)]; rewrite H.
    - eexists; reflexivity.
    - rewrite land_511, Z.gtb_ltb, max_size_eq.
      destruct (Z.eqb_spec (sz mod 512) 0) as [Hm|Hm]; cbn [negb].
      + destruct (Z.ltb_spec (2 ^ 41) sz) as [Hs|Hs].
        * eexists; reflexivity.
        * lia.
      + eexists; reflexivity. }
  destruct E as (msg & E). rewrite E. split; [exists msg; reflexivity|].
  split; [reflexivity|]. intros Hr. exact Hr.
Qed.

Lemma Open_rejects_witness :
  (exists msg, Open (fun _ => Some 513) "hd.hds" fresh
               = (fresh, Some (IoException msg))) /\
  (exists msg, Open (fun _ => Some (2 ^ 41 + 512)) "hd.hds" fresh
               = (fresh, Some (IoException msg))) /\
  (exists msg, Open (fun _ => None) "hd.hds" fresh
               = (fresh, Some (IoException msg))).
Proof.
  split; [|split].
  - apply (Open_rejects (fun _ => Some 513) "hd.hds" fresh).
    right. exists 513. split; [reflexivity|]. left. vm_compute. discriminate.
  - apply (Open_rejects (fun _ => Some (2 ^ 41 + 512)) "hd.hds" fresh).
    right. exists (2 ^ 41 + 512). split; [reflexivity|]. right. reflexivity.
  - apply (Open_rejects (fun _ => None) "hd.hds" fresh).
    left. reflexivity.
Defined.

(** After a successful [Open] the product name is the one derived from the
    block count stored. *)
Lemma Open_product (fs : Fileio) (path : string) (d d' : Disk) :
  Open fs path d = (d', None) ->
  product d' = product_name (Z.shiftr (blocks d') 11).
Proof.
  intros H. apply Open_success in H. destruct H as (sz & _ & _ & _ & ->).
  reflexivity.
Qed.

(** C3: after a successful [Open], with [c] the block count shifted right by
    11, the product name is chosen by the first threshold that [c] is below:
    300, 600, 800, 1000, 2000, and the two-part form from 2000 on; 299, 300,
    599, 600 and 2000 give the names listed. *)
Theorem Open_product_tiers (fs : Fileio) (path : string) (d d' : Disk) :
  Open fs path d = (d', None) ->
  let c := Z.shiftr (blocks d') 11 in
  (c < 300 -> product d' = ("PRODRIVE LPS" ++ dec c ++ "S")%string) /\
  (300 <= c < 600 -> product d' = ("MAVERICK" ++ dec c ++ "S")%string) /\
  (600 <= c < 800 -> product d' = ("LIGHTNING" ++ dec c ++ "S")%string) /\
  (800 <= c < 1000 -> product d' = ("TRAILBRAZER" ++ dec c ++ "S")%string) /\
  (1000 <= c < 2000 -> product d' = ("FIREBALL" ++ dec c ++ "S")%string) /\
  (2000 <= c ->
   product d' = ("FBSE" ++ dec (c / 1000) ++ "."
                        ++ dec ((c mod 1000) / 100) ++ "S")%string) /\
  (c = 299 -> product d' = "PRODRIVE LPS299S") /\
  (c = 300 -> product d' = "MAVERICK300S") /\
  (c = 599 -> product d' = "MAVERICK599S") /\
  (c = 600 -> product d' = "LIGHTNING600S") /\
  (c = 2000 -> product d' = "FBSE2.0S").
Proof.
  intros H c. apply Open_product in H. fold c in H. rewrite H. clear H.
  generalize c. clear. intros c. unfold product_name.
  repeat split; intros Hc;
    repeat match goal with
           | |- context [?a <? ?b] => destruct (Z.ltb_spec a b); try lia
           end;
    try reflexivity; subst c; reflexivity.
Qed.

Lemma Open_product_tiers_witness :
  product (fst (Open (fun _ => Some (2000 * 2 ^ 20)) "hd.hds" fresh)) = "FBSE2.0S" /\
  product (fst (Open (fun _ => Some (299 * 2 ^ 20)) "hd.hds" fresh))
  = "PRODRIVE LPS299S" /\
  product (fst (Open (fun _ => Some (300 * 2 ^ 20)) "hd.hds" fresh))
  = "MAVERICK300S" /\
  product (fst (Open (fun _ => Some (599 * 2 ^ 20)) "hd.hds" fresh))
  = "MAVERICK599S" /\
  product (fst (Open (fun _ => Some (600 * 2 ^ 20)) "hd.hds" fresh))
  = "LIGHTNING600S".
Proof.
  split; [|split; [|split; [|split]]].
  - apply (Open_product_tiers (fun _ => Some (2000 * 2 ^ 20)) "hd.hds" fresh _ eq_refl).
    reflexivity.
  - apply (Open_product_tiers (fun _ => Some (299 * 2 ^ 20)) "hd.hds" fresh _ eq_refl).
    reflexivity.
  - apply (Open_product_tiers (fun _ => Some (300 * 2 ^ 20)) "hd.hds" fresh _ eq_refl).
    reflexivity.
  - apply (Open_product_tiers (fun _ => Some (599 * 2 ^ 20)) "hd.hds" fresh _ eq_refl).
    reflexivity.
  - apply (Open_product_tiers (fun _ => Some (600 * 2 ^ 20)) "hd.hds" fresh _ eq_refl).
    reflexivity.
Defined.

(** ** Inquiry *)

Section IdentifyProperties.

Variable GetPaddedName : Disk -> string.

(** C7: with the EVPD bit of [cdb[1]] set, [Inquiry] returns 0 and sets the
    status code to [STATUS_INVALIDCDB] whether or not the device is ready,
    and the response buffer is the one it was given. *)
Theorem Inquiry_evpd (d : Disk) (cdb : cdb_t) (buf : mem) :
  Z.land (cdb 1) 1 <> 0 ->
  Inquiry GetPaddedName d cdb buf = (0, buf, SetStatusCode STATUS_INVALIDCDB d) /\
  status_code (snd (Inquiry GetPaddedName d cdb buf)) = STATUS_INVALIDCDB /\
  ready (snd (Inquiry GetPaddedName d cdb buf)) = ready d.
Proof.
  intros H. unfold Inquiry.
  destruct (Z.eqb_spec (Z.land (cdb 1) 1) 0) as [E|E]; [contradiction|].
  cbn [negb snd]. repeat split.
Qed.

(** C5: on a ready device with the EVPD bit clear, [Inquiry] stores 125 in
    byte 4 of the response, returns the smaller of 130 and the allocation
    length [cdb[4]], and sets the status code to [STATUS_NOERROR]. *)
Theorem Inquiry_size (d : Disk) (cdb : cdb_t) (buf : mem) :
  ready d = true ->
  Z.land (cdb 1) 1 = 0 ->
  0 <= cdb 4 < 2 ^ 31 ->
  let '(n, buf', d') := Inquiry GetPaddedName d cdb buf in
  b2z (buf' 4) = 125 /\
  n = Z.min 130 (cdb 4) /\
  status_code d' = STATUS_NOERROR /\
  d' = SetStatusCode STATUS_NOERROR d.
Proof.
  intros Hr He Ha. unfold Inquiry, IsReady. rewrite He, Hr.
  cbn [Z.eqb negb].
  assert (Hi : to_int (cdb 4) = cdb 4).
  { unfold to_int. rewrite Z.mod_small; lia. }
  rewrite Hi.
  assert (H4 : forall p, b2z (memcpy (store p 4 (z2b (122 + 3))) 8
                                     (c_str (GetPaddedName d)) 28 4) = 125).
  { intros p. reflexivity. }
  rewrite !H4. repeat split.
  rewrite Z.gtb_ltb. destruct (Z.ltb_spec (cdb 4) (125 + 5)); lia.
Qed.

End IdentifyProperties.

Lemma Inquiry_evpd_witness :
  Inquiry (fun _ => "") (Disk_Open fresh) (dwords [0x12; 1; 0; 0; 255]) (bytes [])
  = (0, bytes [], SetStatusCode STATUS_INVALIDCDB (Disk_Open fresh)) /\
  Inquiry (fun _ => "") fresh (dwords [0x12; 1; 0; 0; 255]) (bytes [])
  = (0, bytes [], SetStatusCode STATUS_INVALIDCDB fresh).
Proof.
  split.
  - apply (Inquiry_evpd (fun _ => "") (Disk_Open fresh)
             (dwords [0x12; 1; 0; 0; 255]) (bytes [])).
    vm_compute. discriminate.
  - apply (Inquiry_evpd (fun _ => "") fresh
             (dwords [0x12; 1; 0; 0; 255]) (bytes [])).
    vm_compute. discriminate.
Defined.

Lemma Inquiry_size_witness :
  let '(n, buf', d') :=
    Inquiry (fun _ => "QUANTUM FIREBALL1280S   0100") (Disk_Open fresh)
            (dwords [0x12; 0; 0; 0; 36]) (bytes []) in
  b2z (buf' 4) = 125 /\ n = Z.min 130 36 /\
  status_code d' = STATUS_NOERROR /\
  d' = SetStatusCode STATUS_NOERROR (Disk_Open fresh).
Proof.
  apply (Inquiry_size (fun _ => "QUANTUM FIREBALL1280S   0100") (Disk_Open fresh)
           (dwords [0x12; 0; 0; 0; 36]) (bytes [])).
  - reflexivity.
  - reflexivity.
  - split; [vm_compute; discriminate | reflexivity].
Defined.

(** ** ModeSelect: the page loop *)

Lemma shiftl_1_pos (n : Z) : 0 <= Z.shiftl 1 n.
Proof. apply Z.shiftl_nonneg. lia. Qed.

(** [1 << disk.size] does not wrap when its value fits an [int]. *)
Lemma sector_size_exact (d : Disk) :
  Z.shiftl 1 (size d) < 2 ^ 31 -> sector_size d = Z.shiftl 1 (size d).
Proof.
  intros H. pose proof (shiftl_1_pos (size d)).
  unfold sector_size, to_int. rewrite Z.mod_small; lia.
Qed.

Lemma shiftl_1_bound (n k : Z) : 0 <= n < k -> Z.shiftl 1 n < 2 ^ k.
Proof.
  intros H. rewrite Z.shiftl_1_l. apply Z.pow_lt_mono_r; lia.
Qed.

(** The bytes of a big-endian value, as the code computes them. *)
Lemma be16_bytes (hi lo : byte) (s : Z) :
  be16 hi lo = s -> hi = z2b (Z.shiftr s 8) /\ lo = z2b s.
Proof.
  unfold be16. intros <-.
  pose proof (b2z_range hi). pose proof (b2z_range lo).
  split; apply b2z_inj; rewrite b2z_z2b.
  - rewrite Z.shiftr_div_pow2 by lia. change (2 ^ 8) with 256.
    Z.div_mod_to_equations. lia.
  - Z.div_mod_to_equations. lia.
Qed.

Lemma be24_bytes (b2 b1 b0 : byte) (s : Z) :
  be24 b2 b1 b0 = s ->
  b2 = z2b (Z.shiftr s 16) /\ b1 = z2b (Z.shiftr s 8) /\ b0 = z2b s.
Proof.
  unfold be24. intros <-.
  pose proof (b2z_range b2). pose proof (b2z_range b1).
  pose proof (b2z_range b0).
  repeat split; apply b2z_inj; rewrite b2z_z2b.
  - rewrite Z.shiftr_div_pow2 by lia. change (2 ^ 16) with 65536.
    Z.div_mod_to_equations. lia.
  - rewrite Z.shiftr_div_pow2 by lia. change (2 ^ 8) with 256.
    Z.div_mod_to_equations. lia.
  - Z.div_mod_to_equations. lia.
Qed.

Lemma bytes_be24 (b2 b1 b0 : byte) (s : Z) :
  0 <= s < 2 ^ 24 ->
  b2 = z2b (Z.shiftr s 16) -> b1 = z2b (Z.shiftr s 8) -> b0 = z2b s ->
  be24 b2 b1 b0 = s.
Proof.
  intros Hs -> -> ->. unfold be24. rewrite !b2z_z2b.
  rewrite !Z.shiftr_div_pow2 by lia.
  change (2 ^ 16) with 65536. change (2 ^ 8) with 256.
  change (2 ^ 24) with 16777216 in Hs.
  Z.div_mod_to_equations. lia.
Qed.

(** One iteration moves the cursor by the length byte plus two. *)
Lemma page_step_next (d : Disk) (buf : mem) (off length off' length' : Z)
      (ev : list event) :
  page_step d buf off length = Next off' length' ev ->
  off' = off + (b2z (buf (off + 1)) + 2) /\
  length' = length - (b2z (buf (off + 1)) + 2).
Proof.
  unfold page_step. destruct (check_page d buf off length) as [[|] ev0].
  - intros H. inversion H. split; reflexivity.
  - discriminate.
Qed.

(** The loop ends within as many iterations as bytes remain. *)
Lemma parse_pages_total (d : Disk) (buf : mem) (fuel : nat) :
  forall off length,
    (Z.to_nat length <= fuel)%nat ->
    exists r, parse_pages fuel d buf off length = Some r.
Proof.
  induction fuel as [|fuel IH]; intros off length Hf.
  - cbn [parse_pages]. rewrite Z.gtb_ltb.
    destruct (Z.ltb_spec 0 length); [lia|]. eexists; reflexivity.
  - cbn [parse_pages]. rewrite Z.gtb_ltb.
    destruct (Z.ltb_spec 0 length) as [Hl|Hl]; [|eexists; reflexivity].
    destruct (page_step d buf off length) as [off' length' ev|ev] eqn:E;
      [|eexists; reflexivity].
    apply page_step_next in E. destruct E as [_ ->].
    pose proof (b2z_range (buf (off + 1))).
    destruct (IH off' (length - (b2z (buf (off + 1)) + 2))) as [[r ev'] ->];
      [lia|].
    eexists; reflexivity.
Qed.

(** More iterations than needed change nothing. *)
Lemma parse_pages_more_fuel (d : Disk) (buf : mem) (fuel : nat) :
  forall off length r,
    parse_pages fuel d buf off length = Some r ->
    forall fuel', (fuel <= fuel')%nat ->
                  parse_pages fuel' d buf off length = Some r.
Proof.
  induction fuel as [|fuel IH]; intros off length r H fuel' Hle.
  - cbn [parse_pages] in H.
    destruct (length >? 0) eqn:E; [discriminate|].
    destruct fuel'; cbn [parse_pages]; rewrite E; exact H.
  - destruct fuel' as [|fuel']; [lia|].
    cbn [parse_pages] in *.
    destruct (length >? 0); [|exact H].
    destruct (page_step d buf off length) as [off' length' ev|ev]; [|exact H].
    destruct (parse_pages fuel d buf off' length') as [[r0 ev0]|] eqn:E;
      [|discriminate].
    rewrite (IH _ _ _ E fuel') by lia. exact H.
Qed.

(** [ModeSelect] always returns. *)
Lemma ModeSelect_total (d : Disk) (cdb : cdb_t) (buf : mem) (length : Z) :
  exists o, ModeSelect d cdb buf length = Some o.
Proof.
  unfold ModeSelect.
  destruct (negb (Z.land (cdb 1) 16 =? 0)); [|eexists; reflexivity].
  destruct (length >=? 12).
  - destruct (check_header d buf) as [[|] ev]; [|eexists; reflexivity].
    destruct (parse_pages_total d buf (Z.to_nat (length - 12)) 12 (length - 12))
      as [[[|] ev'] ->]; [lia| |]; eexists; reflexivity.
  - destruct (parse_pages_total d buf (Z.to_nat length) 0 length)
      as [[[|] ev'] ->]; [lia| |]; eexists; reflexivity.
Qed.

(** C10: the page loop of [ModeSelect] terminates.  An iteration that does
    not abort moves the cursor by the length byte of the page plus two, which
    is at least 2, so the remaining length strictly decreases; the loop
    reaches its end within as many iterations as bytes remain, whatever the
    buffer holds, and [ModeSelect] returns. *)
Theorem parse_pages_terminates (d : Disk) (buf : mem) (off length : Z) :
  (forall off' length' ev,
      page_step d buf off length = Next off' length' ev ->
      off' = off + (b2z (buf (off + 1)) + 2) /\
      length' = length - (b2z (buf (off + 1)) + 2) /\
      2 <= b2z (buf (off + 1)) + 2 /\
      length' < length) /\
  (exists r, forall fuel,
      (Z.to_nat length <= fuel)%nat ->
      parse_pages fuel d buf off length = Some r) /\
  (forall cdb, exists o, ModeSelect d cdb buf length = Some o).
Proof.
  split; [|split].
  - intros off' length' ev H. apply page_step_next in H.
    destruct H as [-> ->]. pose proof (b2z_range (buf (off + 1))).
    repeat split; lia.
  - destruct (parse_pages_total d buf (Z.to_nat length) off length) as [r Hr];
      [lia|].
    exists r. intros fuel Hf.
    apply (parse_pages_more_fuel d buf (Z.to_nat length)); assumption.
  - intros cdb. apply ModeSelect_total.
Qed.

Lemma parse_pages_terminates_witness :
  exists r, parse_pages 3 opened (bytes [0x55; 1; 7]) 0 3 = Some r.
Proof.
  destruct (parse_pages_terminates opened (bytes [0x55; 1; 7]) 0 3)
    as (_ & (r & Hr) & _).
  exists r. apply Hr. apply le_n.
Defined.

(** ** ModeSelect: the header *)

(** The header check passes exactly when the three bytes are those of the
    sector size. *)
Lemma check_header_true (d : Disk) (buf : mem) :
  fst (check_header d buf) = true <->
  buf 9 = z2b (Z.shiftr (sector_size d) 16) /\
  buf 10 = z2b (Z.shiftr (sector_size d) 8) /\
  buf 11 = z2b (sector_size d).
Proof.
  unfold check_header.
  destruct (Byte.eqb (buf 9) (z2b (Z.shiftr (sector_size d) 16))) eqn:E9;
    cbn [negb fst].
  - destruct (Byte.eqb (buf 10) (z2b (Z.shiftr (sector_size d) 8))) eqn:E10;
      cbn [negb fst].
    + destruct (Byte.eqb (buf 11) (z2b (sector_size d))) eqn:E11;
        cbn [negb fst].
      * apply byte_eqb_true in E9, E10, E11. tauto.
      * apply byte_eqb_false in E11. split; [discriminate|tauto].
    + apply byte_eqb_false in E10. split; [discriminate|tauto].
  - apply byte_eqb_false in E9. split; [discriminate|tauto].
Qed.

(** The header check reads bytes 9 to 11 only, in order, up to the first
    that differs. *)
Lemma check_header_trace (d : Disk) (buf : mem) :
  snd (check_header d buf) = [Read 9] \/
  snd (check_header d buf) = [Read 9; Read 10] \/
  snd (check_header d buf) = [Read 9; Read 10; Read 11].
Proof.
  unfold check_header.
  case_negb; cbn [snd]; tauto.
Qed.

(** C4: with the PF bit set and a length of at least 12, when the big-endian
    value of header bytes 9 to 11 differs from [1 << size], [ModeSelect]
    returns [FALSE] with the status code [STATUS_INVALIDPRM]; it has read
    nothing but header bytes 9 to 11, so no page was parsed, and [size] and
    [blocks] are as before.  The sector size is one that the 3-byte field
    can hold ([size] below 24; [Open] sets 9). *)
Theorem ModeSelect_header_mismatch (d : Disk) (cdb : cdb_t) (buf : mem)
        (length : Z) :
  Z.land (cdb 1) 16 <> 0 ->
  12 <= length ->
  0 <= size d < 24 ->
  be24 (buf 9) (buf 10) (buf 11) <> Z.shiftl 1 (size d) ->
  exists o,
    ModeSelect d cdb buf length = Some o /\
    ret o = false /\
    status_code (dev o) = STATUS_INVALIDPRM /\
    dev o = SetStatusCode STATUS_INVALIDPRM d /\
    size (dev o) = size d /\
    blocks (dev o) = blocks d /\
    (trace o = [Read 9] \/ trace o = [Read 9; Read 10] \/
     trace o = [Read 9; Read 10; Read 11]).
Proof.
  intros Hpf Hlen Hsz Hne. unfold ModeSelect.
  destruct (Z.eqb_spec (Z.land (cdb 1) 16) 0) as [E|_]; [contradiction|].
  cbn [negb]. rewrite Z.geb_leb.
  destruct (Z.leb_spec 12 length) as [_|Hl]; [|lia].
  pose proof (check_header_true d buf) as Ht.
  pose proof (check_header_trace d buf) as Htr.
  destruct (check_header d buf) as [[|] ev]; cbn [fst snd] in Ht, Htr.
  - exfalso. apply Hne.
    assert (Hs : Z.shiftl 1 (size d) < 2 ^ 24) by (apply shiftl_1_bound; lia).
    pose proof (shiftl_1_pos (size d)).
    rewrite sector_size_exact in Ht by lia.
    destruct Ht as [Ht _]. destruct (Ht eq_refl) as (H9 & H10 & H11).
    apply bytes_be24; [lia|assumption..].
  - eexists. split; [reflexivity|]. cbn [ret dev trace]. repeat split.
    exact Htr.
Qed.

Lemma ModeSelect_header_mismatch_witness :
  exists o,
    ModeSelect opened (pf_cdb 12) (bytes [0; 0; 0; 8; 0; 0; 0; 0; 0; 0; 4; 0]) 12
    = Some o /\
    ret o = false /\
    status_code (dev o) = STATUS_INVALIDPRM /\
    dev o = SetStatusCode STATUS_INVALIDPRM opened /\
    size (dev o) = size opened /\
    blocks (dev o) = blocks opened /\
    (trace o = [Read 9] \/ trace o = [Read 9; Read 10] \/
     trace o = [Read 9; Read 10; Read 11]).
Proof.
  apply (ModeSelect_header_mismatch opened (pf_cdb 12)
           (bytes [0; 0; 0; 8; 0; 0; 0; 0; 0; 0; 4; 0]) 12).
  - vm_compute. discriminate.
  - lia.
  - vm_compute. split; [discriminate | reflexivity].
  - vm_compute. discriminate.
Defined.

(** ** ModeSelect: tolerated pages *)

(** The pages of a list do not depend on the iterations allowed, once there
    are as many as bytes remain. *)
Lemma page_starts_fuel (buf : mem) (fuel : nat) :
  forall fuel' off length,
    (Z.to_nat length <= fuel)%nat -> (Z.to_nat length <= fuel')%nat ->
    page_starts fuel buf off length = page_starts fuel' buf off length.
Proof.
  induction fuel as [|fuel IH]; intros fuel' off length Hf Hf'.
  - destruct fuel' as [|fuel']; [reflexivity|].
    cbn [page_starts]. rewrite Z.gtb_ltb.
    destruct (Z.ltb_spec 0 length); [lia|reflexivity].
  - cbn [page_starts]. rewrite Z.gtb_ltb.
    destruct (Z.ltb_spec 0 length) as [Hl|Hl].
    + destruct fuel' as [|fuel']; [lia|].
      cbn [page_starts]. rewrite Z.gtb_ltb.
      destruct (Z.ltb_spec 0 length) as [_|Hl']; [|lia].
      pose proof (b2z_range (buf (off + 1))).
      f_equal. apply IH; lia.
    + destruct fuel' as [|fuel']; [reflexivity|].
      cbn [page_starts]. rewrite Z.gtb_ltb.
      destruct (Z.ltb_spec 0 length); [lia|reflexivity].
Qed.

(** A page passes the [switch] unless it is a page 0x03 whose bytes 0xC and
    0xD are not those of the sector size. *)
Lemma check_page_ok (d : Disk) (buf : mem) (off length : Z) :
  (buf off = x03 ->
   be16 (buf (off + 12)) (buf (off + 13)) = Z.shiftl 1 (size d)) ->
  fst (check_page d buf off length) = true.
Proof.
  intros H. unfold check_page.
  destruct (Byte.eqb (buf off) x03) eqn:E3.
  - apply byte_eqb_true in E3. specialize (H E3).
    assert (Hs : sector_size d = Z.shiftl 1 (size d)).
    { apply sector_size_exact. rewrite <- H. unfold be16.
      pose proof (b2z_range (buf (off + 12))).
      pose proof (b2z_range (buf (off + 13))). lia. }
    rewrite <- Hs in H. apply be16_bytes in H. destruct H as [H12 H13].
    apply byte_eqb_true in H12, H13. rewrite H12, H13. reflexivity.
  - destruct (Byte.eqb (buf off) x08); reflexivity.
Qed.

(** Pages 0x08 and pages of unknown code always pass. *)
Lemma check_page_skipped (d : Disk) (buf : mem) (off length : Z) :
  buf off <> x03 -> fst (check_page d buf off length) = true.
Proof.
  intros H. apply check_page_ok. intros E. contradiction.
Qed.

Lemma parse_pages_ok (d : Disk) (buf : mem) (fuel : nat) :
  forall off length,
    (Z.to_nat length <= fuel)%nat ->
    (forall o, In o (page_starts fuel buf off length) -> buf o = x03 ->
               be16 (buf (o + 12)) (buf (o + 13)) = Z.shiftl 1 (size d)) ->
    exists ev, parse_pages fuel d buf off length = Some (true, ev).
Proof.
  induction fuel as [|fuel IH]; intros off length Hf Hp.
  - cbn [parse_pages]. rewrite Z.gtb_ltb.
    destruct (Z.ltb_spec 0 length); [lia|]. eexists; reflexivity.
  - cbn [parse_pages page_starts] in *. rewrite Z.gtb_ltb in *.
    destruct (Z.ltb_spec 0 length) as [Hl|Hl]; [|eexists; reflexivity].
    pose proof (check_page_ok d buf off length (Hp off (or_introl eq_refl)))
      as Hc.
    unfold page_step. destruct (check_page d buf off length) as [ok ev0].
    cbn [fst] in Hc. subst ok.
    pose proof (b2z_range (buf (off + 1))).
    destruct (IH (off + (b2z (buf (off + 1)) + 2))
                 (length - (b2z (buf (off + 1)) + 2))) as [ev' ->].
    + lia.
    + intros o Ho. apply Hp. right. exact Ho.
    + eexists; reflexivity.
Qed.

(** C8: with the PF bit set, when the header (if the length is at least 12)
    holds the current block length and every page 0x03 of the list holds the
    current sector size, [ModeSelect] returns [TRUE] with the status code
    [STATUS_NOERROR], whatever the number of pages 0x08 or of unknown code:
    those never make it fail. *)
Theorem ModeSelect_tolerant (d : Disk) (cdb : cdb_t) (buf : mem) (length : Z) :
  Z.land (cdb 1) 16 <> 0 ->
  (12 <= length -> be24 (buf 9) (buf 10) (buf 11) = Z.shiftl 1 (size d)) ->
  (forall o, In o (pages buf length) -> buf o = x03 ->
             be16 (buf (o + 12)) (buf (o + 13)) = Z.shiftl 1 (size d)) ->
  (exists o,
      ModeSelect d cdb buf length = Some o /\
      ret o = true /\
      status_code (dev o) = STATUS_NOERROR /\
      dev o = SetStatusCode STATUS_NOERROR d) /\
  (forall o length',
      buf o <> x03 -> fst (check_page d buf o length') = true).
Proof.
  intros Hpf Hh Hp. split; [|intros o length'; apply check_page_skipped].
  unfold ModeSelect, pages in *.
  destruct (Z.eqb_spec (Z.land (cdb 1) 16) 0) as [E|_]; [contradiction|].
  cbn [negb]. rewrite Z.geb_leb in *.
  destruct (Z.leb_spec 12 length) as [Hl|Hl].
  - specialize (Hh Hl).
    assert (Hs : sector_size d = Z.shiftl 1 (size d)).
    { apply sector_size_exact. rewrite <- Hh. unfold be24.
      pose proof (b2z_range (buf 9)). pose proof (b2z_range (buf 10)).
      pose proof (b2z_range (buf 11)). lia. }
    rewrite <- Hs in Hh. apply be24_bytes in Hh.
    apply check_header_true in Hh.
    destruct (check_header d buf) as [ok ev]. cbn [fst] in Hh. subst ok.
    destruct (parse_pages_ok d buf (Z.to_nat (length - 12)) 12 (length - 12))
      as [ev' ->]; [lia|exact Hp|].
    eexists. split; [reflexivity|]. repeat split.
  - destruct (parse_pages_ok d buf (Z.to_nat length) 0 length)
      as [ev' ->]; [lia|exact Hp|].
    eexists. split; [reflexivity|]. repeat split.
Qed.

Lemma ModeSelect_tolerant_witness :
  pages (bytes tolerant_list) 67 = [12; 36; 39; 43] /\
  exists o,
    ModeSelect opened (pf_cdb 67) (bytes tolerant_list) 67 = Some o /\
    ret o = true /\
    status_code (dev o) = STATUS_NOERROR /\
    dev o = SetStatusCode STATUS_NOERROR opened.
Proof.
  split; [reflexivity|].
  apply (ModeSelect_tolerant opened (pf_cdb 67) (bytes tolerant_list) 67).
  - vm_compute. discriminate.
  - intros _. reflexivity.
  - intros o Ho.
    change (pages (bytes tolerant_list) 67) with [12; 36; 39; 43] in Ho.
    cbn [In] in Ho.
    destruct Ho as [<-|[<-|[<-|[<-|[]]]]]; intros H;
      first [reflexivity | discriminate H].
Defined.

(** ** ModeSelect: reads past the length *)

Lemma reads_app (a b : list event) : reads (a ++ b) = reads a ++ reads b.
Proof.
  induction a as [|e a IH]; [reflexivity|].
  destruct e; cbn [reads app]; rewrite IH; reflexivity.
Qed.

(** A page 0x03 has its byte 0xC read, whatever remains of the list. *)
Lemma check_page_3_reads (d : Disk) (buf : mem) (off length : Z) :
  buf off = x03 -> In (off + 12) (reads (snd (check_page d buf off length))).
Proof.
  intros H. unfold check_page. rewrite H. change (Byte.eqb x03 x03) with true.
  cbv iota zeta.
  case_negb; cbn; tauto.
Qed.

(** Without a header, the trace of [ModeSelect] starts with that of the
    [switch] on the page at offset 0. *)
Lemma ModeSelect_first_page (d : Disk) (cdb : cdb_t) (buf : mem) (length : Z)
      (o : outcome) :
  Z.land (cdb 1) 16 <> 0 ->
  0 < length < 12 ->
  ModeSelect d cdb buf length = Some o ->
  exists ev, trace o = snd (check_page d buf 0 length) ++ ev.
Proof.
  intros Hpf Hl. unfold ModeSelect.
  destruct (Z.eqb_spec (Z.land (cdb 1) 16) 0) as [E|_]; [contradiction|].
  cbn [negb]. rewrite Z.geb_leb.
  destruct (Z.leb_spec 12 length) as [Hl'|_]; [lia|].
  destruct (Z.to_nat length) as [|fuel] eqn:Ef; [lia|].
  cbn [parse_pages]. rewrite Z.gtb_ltb.
  destruct (Z.ltb_spec 0 length) as [_|Hl']; [|lia].
  unfold page_step. destruct (check_page d buf 0 length) as [[|] ev0];
    cbn [snd app].
  - destruct (parse_pages fuel d buf _ _) as [[[|] ev']|]; intros H;
      inversion H; subst; cbn [trace]; rewrite <- app_assoc;
      eexists; reflexivity.
  - intros H. inversion H; subst. cbn [trace]. exists []. symmetry. apply app_nil_r.
Qed.

(** C2: with the PF bit set, a one-byte parameter list holding 0x00 makes
    the loop read the length byte at offset 1, and a two-byte list holding a
    page 0x03 with length byte 0 makes it read offset 12: both are outside
    the [length] bytes supplied, while the dump of a page 0x08 stays within
    them. *)
Theorem ModeSelect_reads_past_length (d : Disk) :
  (exists o,
      ModeSelect d (pf_cdb 1) (bytes [0]) 1 = Some o /\
      reads (trace o) = [0; 1] /\
      ~ Forall (fun x => 0 <= x < 1) (reads (trace o))) /\
  (exists o,
      ModeSelect d (pf_cdb 2) (bytes [3; 0]) 2 = Some o /\
      In 12 (reads (trace o)) /\
      ~ Forall (fun x => 0 <= x < 2) (reads (trace o))) /\
  (exists o,
      ModeSelect d (pf_cdb 3) (bytes [8; 1; 7]) 3 = Some o /\
      reads (trace o) = [0; 0; 1; 2; 1] /\
      Forall (fun x => 0 <= x < 3) (reads (trace o))).
Proof.
  split; [|split].
  - eexists. split; [reflexivity|]. split; [reflexivity|].
    intros H. inversion H as [|x l H0 H1]; subst.
    inversion H1 as [|x l H2 H3]; subst. lia.
  - destruct (ModeSelect_total d (pf_cdb 2) (bytes [3; 0]) 2) as [o Ho].
    exists o. split; [exact Ho|].
    assert (Hin : In 12 (reads (trace o))).
    { destruct (ModeSelect_first_page d (pf_cdb 2) (bytes [3; 0]) 2 o)
        as [ev Hev]; [vm_compute; discriminate|lia|exact Ho|].
      rewrite Hev, reads_app. apply in_or_app. left.
      apply (check_page_3_reads d (bytes [3; 0]) 0 2). reflexivity. }
    split; [exact Hin|].
    intros HF. rewrite Forall_forall in HF. apply HF in Hin. lia.
  - eexists. split; [reflexivity|]. split; [reflexivity|].
    cbn [trace reads]. repeat (apply Forall_cons; [lia|]). apply Forall_nil.
Qed.

(** ** ModeSelect: where the reads stay within the length *)

Lemma Forall_reads_app (P : Z -> Prop) (a b : list event) :
  Forall P (reads a) -> Forall P (reads b) -> Forall P (reads (a ++ b)).
Proof.
  intros Ha Hb. rewrite reads_app. apply Forall_app. split; assumption.
Qed.

(** The dump of a page 0x08 reads the remaining bytes and no other. *)
Lemma dump_reads (buf : mem) (off length : Z) :
  Forall (fun x => off <= x < off + length) (reads (dump buf off length)).
Proof.
  unfold dump.
  assert (H : forall l, (forall i, In i l -> (i < Z.to_nat length)%nat) ->
                        Forall (fun x => off <= x < off + length)
                               (reads (flat_map
                                  (fun i => [Read (off + Z.of_nat i);
                                             PrintHex (buf (off + Z.of_nat i))])
                                  l))).
  { induction l as [|i l IH]; intros Hl; cbn [flat_map app reads].
    - apply Forall_nil.
    - apply Forall_cons.
      + specialize (Hl i (or_introl eq_refl)). lia.
      + apply IH. intros j Hj. apply Hl. right. exact Hj. }
  apply H. intros i Hi. apply in_seq in Hi. lia.
Qed.

(** A page whose [switch] reads stay within the remaining bytes: a page
    0x03 needs 14 of them. *)
Lemma check_page_reads (d : Disk) (buf : mem) (off length : Z) :
  0 < length ->
  (buf off = x03 -> 14 <= length) ->
  Forall (fun x => off <= x < off + length)
         (reads (snd (check_page d buf off length))).
Proof.
  intros Hl H3. unfold check_page.
  destruct (Byte.eqb (buf off) x03) eqn:E3.
  - apply byte_eqb_true in E3. specialize (H3 E3).
    case_negb;
      cbn [snd reads]; repeat (apply Forall_cons; [lia|]); apply Forall_nil.
  - destruct (Byte.eqb (buf off) x08); cbn [snd reads].
    + apply Forall_cons; [lia|].
      apply Forall_reads_app; [apply dump_reads|apply Forall_nil].
    + apply Forall_cons; [lia|]. apply Forall_nil.
Qed.

Lemma parse_pages_reads (d : Disk) (buf : mem) (fuel : nat) :
  forall off length bound r ev,
    0 <= off -> off + length = bound ->
    (forall o, In o (page_starts fuel buf off length) ->
               o + 2 <= bound /\ (buf o = x03 -> o + 14 <= bound)) ->
    parse_pages fuel d buf off length = Some (r, ev) ->
    Forall (fun x => 0 <= x < bound) (reads ev).
Proof.
  induction fuel as [|fuel IH]; intros off length bound r ev Ho Hb Hp.
  - cbn [parse_pages]. destruct (length >? 0); [discriminate|].
    intros H. inversion H. apply Forall_nil.
  - cbn [parse_pages page_starts] in *. rewrite Z.gtb_ltb in *.
    destruct (Z.ltb_spec 0 length) as [Hl|Hl];
      [|intros H; inversion H; apply Forall_nil].
    destruct (Hp off (or_introl eq_refl)) as [H2 H3].
    pose proof (check_page_reads d buf off length Hl) as Hc.
    unfold page_step. destruct (check_page d buf off length) as [[|] ev0];
      cbn [snd] in Hc.
    + pose proof (b2z_range (buf (off + 1))) as Hb1.
      destruct (parse_pages fuel d buf _ _) as [[r' ev']|] eqn:E;
        [|discriminate].
      assert (Hrec : Forall (fun x => 0 <= x < bound) (reads ev')).
      { apply (IH (off + (b2z (buf (off + 1)) + 2))
                  (length - (b2z (buf (off + 1)) + 2)) bound r' ev');
          [lia|lia| |exact E].
        intros o Hin. apply Hp. right. exact Hin. }
      intros H. inversion H; subst r' ev. clear H.
      apply Forall_reads_app; [apply Forall_reads_app|exact Hrec].
      * eapply Forall_impl; [|apply Hc; intros E3; specialize (H3 E3); lia].
        cbv beta. intros x Hx. lia.
      * cbn [reads]. apply Forall_cons; [lia|apply Forall_nil].
    + intros H. inversion H; subst r ev. clear H.
      eapply Forall_impl; [|apply Hc; intros E3; specialize (H3 E3); lia].
      cbv beta. intros x Hx. lia.
Qed.

(** When every page of the list has its two leading bytes, and every page
    0x03 its first 14 bytes, within the length, [ModeSelect] reads no byte
    outside of it; a length byte that runs past the end does no harm. *)
Lemma ModeSelect_reads_in_bounds (d : Disk) (cdb : cdb_t) (buf : mem)
      (length : Z) (o : outcome) :
  (forall p, In p (pages buf length) ->
             p + 2 <= length /\ (buf p = x03 -> p + 14 <= length)) ->
  ModeSelect d cdb buf length = Some o ->
  Forall (fun x => 0 <= x < length) (reads (trace o)).
Proof.
  intros Hp. unfold ModeSelect, pages in *.
  destruct (negb (Z.land (cdb 1) 16 =? 0));
    [|intros H; inversion H; apply Forall_nil].
  rewrite Z.geb_leb in *.
  destruct (Z.leb_spec 12 length) as [Hl|Hl].
  - pose proof (check_header_trace d buf) as Htr.
    assert (Hh : Forall (fun x => 0 <= x < length)
                        (reads (snd (check_header d buf)))).
    { destruct Htr as [->|[->| ->]]; cbn [reads];
        repeat (apply Forall_cons; [lia|]); apply Forall_nil. }
    destruct (check_header d buf) as [[|] ev]; cbn [snd] in Hh;
      [|intros H; inversion H; exact Hh].
    destruct (parse_pages _ d buf 12 (length - 12)) as [[r ev']|] eqn:E;
      [|discriminate].
    assert (Hr : Forall (fun x => 0 <= x < length) (reads ev')).
    { apply (parse_pages_reads d buf (Z.to_nat (length - 12)) 12 (length - 12)
               length r ev');
        [lia|lia|exact Hp|exact E]. }
    destruct r; intros H; inversion H; cbn [trace];
      apply Forall_reads_app; assumption.
  - destruct (parse_pages _ d buf 0 length) as [[r ev']|] eqn:E;
      [|discriminate].
    assert (Hr : Forall (fun x => 0 <= x < length) (reads ev')).
    { apply (parse_pages_reads d buf (Z.to_nat length) 0 length length r ev');
        [lia|lia|exact Hp|exact E]. }
    destruct r; intros H; inversion H; cbn [trace app]; exact Hr.
Qed.

(** * Further properties *)

(** ** Open: acceptance, block count, product name buffer *)

(** X1: [Open] returns without throwing exactly when the backing store can
    be opened read-only and its byte size is a multiple of 512 that does not
    exceed 2^41. *)
Theorem Open_succeeds_iff (fs : Fileio) (path : string) (d : Disk) :
  snd (Open fs path d) = None <->
  exists sz, fs path = Some sz /\ sz mod 512 = 0 /\ sz <= 2 ^ 41.
Proof.
  split.
  - intros H. destruct (Open fs path d) as [d' e] eqn:E. cbn [snd] in H.
    subst e. apply Open_success in E. destruct E as (sz & H1 & H2 & H3 & _).
    exists sz. auto.
  - intros (sz & H1 & H2 & H3). unfold Open.
    rewrite H1, land_511, H2, Z.gtb_ltb, max_size_eq. cbn [Z.eqb negb].
    destruct (Z.ltb_spec (2 ^ 41) sz); [lia|reflexivity].
Qed.

(** What a successful [Open] stores as block count, for any size. *)
Lemma Open_blocks (fs : Fileio) (path : string) (d d' : Disk) (sz : Z) :
  fs path = Some sz -> Open fs path d = (d', None) ->
  blocks d' = (sz / 512) mod 2 ^ 32.
Proof.
  intros Hfs H. apply Open_success in H.
  destruct H as (sz' & Hfs' & _ & _ & ->). rewrite Hfs in Hfs'.
  inversion Hfs'; subst sz'.
  change (to_DWORD (Z.shiftr sz 9) = (sz / 512) mod 2 ^ 32).
  unfold to_DWORD. rewrite Z.shiftr_div_pow2 by lia. reflexivity.
Qed.

(** X2: after a successful [Open] on a store of [sz] bytes the block count
    is a [DWORD], and it is [sz / 512] exactly when [sz] is below 2^41; the
    block count times 512 gives the byte size back for those sizes only. *)
Theorem Open_blocks_exact_iff (fs : Fileio) (path : string) (d d' : Disk)
        (sz : Z) :
  fs path = Some sz -> 0 <= sz -> Open fs path d = (d', None) ->
  0 <= blocks d' < 2 ^ 32 /\
  (blocks d' = sz / 512 <-> sz < 2 ^ 41) /\
  (blocks d' * 512 = sz <-> sz < 2 ^ 41).
Proof.
  intros Hfs Hpos H. pose proof (Open_blocks fs path d d' sz Hfs H) as Hb.
  apply Open_success in H. destruct H as (sz' & Hfs' & Hm & Hle & _).
  rewrite Hfs in Hfs'. inversion Hfs'; subst sz'. clear Hfs'.
  rewrite Hb.
  assert (Hr : 0 <= (sz / 512) mod 2 ^ 32 < 2 ^ 32)
    by (apply Z.mod_pos_bound; lia).
  assert (Hq : sz = 512 * (sz / 512)).
  { pose proof (Z.div_mod sz 512). lia. }
  assert (Hd : 0 <= sz / 512 <= 2 ^ 32).
  { split; [apply Z.div_pos; lia|]. apply Z.div_le_upper_bound; lia. }
  split; [exact Hr|].
  destruct (Z.eq_dec (sz / 512) (2 ^ 32)) as [E|E].
  - rewrite E. change (2 ^ 32 mod 2 ^ 32) with 0.
    split; split; intros H; lia.
  - rewrite Z.mod_small by lia. split; split; intros H; lia.
Qed.

Lemma Open_blocks_exact_iff_witness :
  blocks opened = 40 * 2 ^ 20 / 512 <-> 40 * 2 ^ 20 < 2 ^ 41.
Proof.
  apply (Open_blocks_exact_iff (fun _ => Some (40 * 2 ^ 20)) "hd.hds" fresh
           opened (40 * 2 ^ 20)).
  - reflexivity.
  - vm_compute. discriminate.
  - reflexivity.
Defined.

Lemma length_append (s1 s2 : string) :
  String.length (s1 ++ s2)%string = (String.length s1 + String.length s2)%nat.
Proof.
  induction s1 as [|c s1 IH]; cbn; [reflexivity|]. rewrite IH. reflexivity.
Qed.

(** [sprintf("%d")] writes at most three characters below 1000 and at most
    four below 2100; checked value by value. *)
Lemma dec_length_table :
  forallb (fun n => Nat.leb (String.length (dec (Z.of_nat n)))
                            (if Nat.ltb n 1000 then 3 else 4))
          (seq 0 2100) = true.
Proof. vm_compute. reflexivity. Qed.

Lemma dec_length (n : Z) :
  0 <= n < 2100 ->
  (String.length (dec n) <= if (n <? 1000)%Z then 3 else 4)%nat.
Proof.
  intros Hn. pose proof dec_length_table as H.
  rewrite forallb_forall in H. specialize (H (Z.to_nat n)).
  rewrite Z2Nat.id in H by lia.
  assert (Hin : In (Z.to_nat n) (seq 0 2100)) by (apply in_seq; lia).
  apply H in Hin. apply Nat.leb_le in Hin.
  destruct (Z.ltb_spec n 1000); destruct (Nat.ltb_spec (Z.to_nat n) 1000);
    try lia; exact Hin.
Qed.

(** The name of a capacity that a [DWORD] block count can give has at most
    16 characters. *)
Lemma product_name_length (c : Z) :
  0 <= c < 2 ^ 21 -> (String.length (product_name c) <= 16)%nat.
Proof.
  intros Hc. unfold product_name.
  repeat match goal with
         | |- context [?a <? ?b] => destruct (Z.ltb_spec a b)
         end;
    rewrite !length_append; cbn [String.length].
  1-5: pose proof (dec_length c ltac:(lia)) as Hd;
       destruct (Z.ltb_spec c 1000); lia.
  assert (Hq : 0 <= c / 1000 < 2100).
  { split; [apply Z.div_pos; lia|]. apply Z.div_lt_upper_bound; lia. }
  assert (Hr : 0 <= c mod 1000 / 100 < 10).
  { pose proof (Z.mod_pos_bound c 1000 ltac:(lia)).
    split; [apply Z.div_pos; lia|]. apply Z.div_lt_upper_bound; lia. }
  pose proof (dec_length (c / 1000) Hq) as Hlq.
  pose proof (dec_length (c mod 1000 / 100) ltac:(lia)) as Hlr.
  destruct (Z.ltb_spec (c / 1000) 1000);
    destruct (Z.ltb_spec (c mod 1000 / 100) 1000); lia.
Qed.

(** X3: the product name that a successful [Open] formats fits the 17-byte
    buffer of line 93 with its terminating NUL: it has at most 16
    characters, whatever the size of the backing store. *)
Theorem Open_product_fits (fs : Fileio) (path : string) (d d' : Disk) :
  Open fs path d = (d', None) ->
  (String.length (product d') <= 16)%nat /\
  0 <= Z.shiftr (blocks d') 11 < 2 ^ 21.
Proof.
  intros H. pose proof (Open_product fs path d d' H) as Hp.
  apply Open_success in H. destruct H as (sz & _ & _ & _ & Hd).
  assert (Hb : blocks d' = to_DWORD (Z.shiftr sz 9)) by (subst d'; reflexivity).
  assert (Hc : 0 <= Z.shiftr (blocks d') 11 < 2 ^ 21).
  { rewrite Hb. unfold to_DWORD. rewrite (Z.shiftr_div_pow2 _ 11) by lia.
    pose proof (Z.mod_pos_bound (Z.shiftr sz 9) (2 ^ 32) ltac:(lia)).
    split; [apply Z.div_pos; lia|]. apply Z.div_lt_upper_bound; lia. }
  split; [|exact Hc]. rewrite Hp. apply product_name_length. exact Hc.
Qed.

Lemma Open_product_fits_witness :
  (String.length
     (product (fst (Open (fun _ => Some (299 * 2 ^ 20)%Z) "hd.hds" fresh)))
   <= 16)%nat.
Proof.
  apply (Open_product_fits (fun _ => Some (299 * 2 ^ 20)) "hd.hds" fresh
           _ eq_refl).
Defined.

(** X4: the checks of [Open] are made in order, and the first that fails
    decides the message: a store that cannot be opened, then a size that is
    not a multiple of 512 (even when it also exceeds 2 TB), then a size
    above 2 TB. *)
Theorem Open_error_order (fs : Fileio) (path : string) (d : Disk) :
  (fs path = None ->
   snd (Open fs path d)
   = Some (IoException "Can't open hard disk file read-only")) /\
  (forall sz, fs path = Some sz -> sz mod 512 <> 0 ->
              snd (Open fs path d)
              = Some (IoException "File size must be a multiple of 512 bytes")) /\
  (forall sz, fs path = Some sz -> sz mod 512 = 0 -> 2 ^ 41 < sz ->
              snd (Open fs path d)
              = Some (IoException "File size must not exceed 2 TB")).
Proof.
  unfold Open. repeat split.
  - intros ->. reflexivity.
  - intros sz -> Hm. rewrite land_511.
    destruct (Z.eqb_spec (sz mod 512) 0); [contradiction|reflexivity].
  - intros sz -> Hm Hs. rewrite land_511, Hm, Z.gtb_ltb, max_size_eq.
    cbn [Z.eqb negb]. destruct (Z.ltb_spec (2 ^ 41) sz); [reflexivity|lia].
Qed.

(** A throw leaves the device object as it was. *)
Lemma Open_throw_unchanged (fs : Fileio) (path : string) (d d' : Disk)
      (e : ioexception) :
  Open fs path d = (d', Some e) -> d' = d.
Proof.
  unfold Open. destruct (fs path) as [sz|].
  - destruct (negb (Z.land sz 511 =? 0)); [intros E; inversion E; reflexivity|].
    destruct (sz >? max_size); intros E; inversion E; reflexivity.
  - intros E; inversion E; reflexivity.
Qed.

(** ** Inquiry: paths, response layout, frame *)

Section IdentifyFurther.

Variable GetPaddedName : Disk -> string.

(** X5: with the EVPD bit clear on a device that is not ready, [Inquiry]
    returns 0 with the status code [STATUS_NOTREADY], writes no byte of the
    response and changes nothing else of the device. *)
Theorem Inquiry_not_ready (d : Disk) (cdb : cdb_t) (buf : mem) :
  Z.land (cdb 1) 1 = 0 ->
  ready d = false ->
  Inquiry GetPaddedName d cdb buf = (0, buf, SetStatusCode STATUS_NOTREADY d).
Proof.
  intros He Hr. unfold Inquiry, IsReady. rewrite He, Hr. reflexivity.
Qed.

(** X6: the status code that [Inquiry] leaves tells its path: it is
    [STATUS_NOERROR] exactly when the EVPD bit is clear and the device is
    ready, the returned size is 0 on the two other paths, and in every case
    the device differs from the one given by its status code only. *)
Theorem Inquiry_status_iff (d : Disk) (cdb : cdb_t) (buf : mem) :
  let '(n, _, d') := Inquiry GetPaddedName d cdb buf in
  (status_code d' = STATUS_NOERROR <->
   Z.land (cdb 1) 1 = 0 /\ ready d = true) /\
  (status_code d' = STATUS_INVALIDCDB <-> Z.land (cdb 1) 1 <> 0) /\
  (status_code d' = STATUS_NOTREADY <->
   Z.land (cdb 1) 1 = 0 /\ ready d = false) /\
  (status_code d' <> STATUS_NOERROR -> n = 0) /\
  d' = SetStatusCode (status_code d') d.
Proof.
  unfold Inquiry, IsReady.
  destruct (Z.eqb_spec (Z.land (cdb 1) 1) 0) as [E|E]; cbn [negb].
  - destruct (ready d) eqn:Hr; cbn [negb status_code SetStatusCode].
    + repeat split; try tauto; try discriminate; intros H;
        try (destruct H; discriminate); try contradiction.
    + repeat split; try tauto; try discriminate; intros H;
        try (destruct H; discriminate); try contradiction.
  - cbn [status_code SetStatusCode].
    repeat split; try tauto; try discriminate; intros H;
      try (destruct H; contradiction); try contradiction.
Qed.

(** X7: on a ready device with the EVPD bit clear, the response is: byte 0
    0x7f when the logical unit of [cdb[1]] is not the one of the device and
    0x00 when it is, byte 1 zero, bytes 2 and 3 equal to 2, byte 4 equal to
    125, bytes 5 to 7 zero, and bytes 8 to 35 the first 28 characters of the
    padded name. *)
Theorem Inquiry_layout (d : Disk) (cdb : cdb_t) (buf : mem) :
  ready d = true ->
  Z.land (cdb 1) 1 = 0 ->
  let buf' := snd (fst (Inquiry GetPaddedName d cdb buf)) in
  buf' 0 = (if Z.land (Z.shiftr (cdb 1) 5) 7 =? lun d then x00 else x7f) /\
  buf' 1 = x00 /\ buf' 2 = x02 /\ buf' 3 = x02 /\ b2z (buf' 4) = 125 /\
  buf' 5 = x00 /\ buf' 6 = x00 /\ buf' 7 = x00 /\
  (forall i, 0 <= i < 28 -> buf' (8 + i) = c_str (GetPaddedName d) i).
Proof.
  intros Hr He. unfold Inquiry, IsReady, GetLun. rewrite He, Hr.
  cbn [Z.eqb negb fst snd].
  repeat split;
    try (destruct (Z.land (Z.shiftr (cdb 1) 5) 7 =? lun d); reflexivity).
  intros i Hi. unfold memcpy.
  destruct (Z.leb_spec 8 (8 + i)); [|lia].
  destruct (Z.ltb_spec (8 + i) (8 + 28)); [|lia].
  cbn [andb]. f_equal. lia.
Qed.

(** X8: [Inquiry] writes bytes 0 to 35 of the buffer and no other, on every
    path and whatever the allocation length [cdb[4]] is: a byte at a
    negative offset or at offset 36 or more is as it was. *)
Theorem Inquiry_frame (d : Disk) (cdb : cdb_t) (buf : mem) (o : Z) :
  o < 0 \/ 36 <= o ->
  snd (fst (Inquiry GetPaddedName d cdb buf)) o = buf o.
Proof.
  intros Ho. unfold Inquiry.
  destruct (negb (Z.land (cdb 1) 1 =? 0)); [reflexivity|].
  destruct (negb (IsReady d)); [reflexivity|].
  cbn [fst snd]. unfold memcpy, store, memset.
  destruct (Z.leb_spec 8 o); destruct (Z.ltb_spec o (8 + 28)); try lia;
    cbn [andb];
    repeat match goal with
           | |- context [?a =? ?b] =>
               destruct (Z.eqb_spec a b); [lia|]
           end;
    destruct (negb (Z.land (Z.shiftr (cdb 1) 5) 7 =? GetLun d));
    repeat match goal with
           | |- context [?a =? ?b] =>
               destruct (Z.eqb_spec a b); [lia|]
           end;
    destruct (Z.leb_spec 0 o); destruct (Z.ltb_spec o 8); try lia;
    reflexivity.
Qed.

(** X9: the 36 response bytes are written in full even when the allocation
    length is smaller: for [cdb[4]] below 36 the returned size is [cdb[4]]
    while byte 35 of the buffer holds the last character of the name. *)
Theorem Inquiry_short_allocation (d : Disk) (cdb : cdb_t) (buf : mem) :
  ready d = true ->
  Z.land (cdb 1) 1 = 0 ->
  0 <= cdb 4 < 36 ->
  fst (fst (Inquiry GetPaddedName d cdb buf)) = cdb 4 /\
  snd (fst (Inquiry GetPaddedName d cdb buf)) 35
  = c_str (GetPaddedName d) 27.
Proof.
  intros Hr He Ha. unfold Inquiry, IsReady. rewrite He, Hr.
  cbn [Z.eqb negb fst snd].
  assert (Hi : to_int (cdb 4) = cdb 4).
  { unfold to_int. rewrite Z.mod_small; lia. }
  rewrite Hi. split; [|reflexivity].
  change (b2z _ + 5) with 130.
  rewrite Z.gtb_ltb. destruct (Z.ltb_spec (cdb 4) 130); [reflexivity|lia].
Qed.

(** X10: [Inquiry] after [Open]: once [Open] has succeeded an [Inquiry] with
    the EVPD bit clear ends with [STATUS_NOERROR], and after an [Open] that
    threw on a device that was not ready it ends with [STATUS_NOTREADY] and
    returns 0. *)
Theorem Inquiry_after_Open (fs : Fileio) (path : string) (d : Disk)
        (cdb : cdb_t) (buf : mem) :
  Z.land (cdb 1) 1 = 0 ->
  ready d = false ->
  let r := Open fs path d in
  let '(n, _, d') := Inquiry GetPaddedName (fst r) cdb buf in
  (snd r = None -> status_code d' = STATUS_NOERROR /\ size d' = 9) /\
  (snd r <> None -> status_code d' = STATUS_NOTREADY /\ n = 0 /\
                    ready d' = false).
Proof.
  intros He Hr. cbv zeta.
  destruct (Open fs path d) as [d1 e] eqn:E. cbn [fst snd].
  destruct e as [x|].
  - apply Open_throw_unchanged in E. subst d1. rewrite (Inquiry_not_ready d cdb buf He Hr).
    split; [intros H; discriminate|]. intros _. repeat split. exact Hr.
  - apply Open_size in E. destruct E as [Hs Hrd].
    unfold Inquiry, IsReady. rewrite He, Hrd. cbn [Z.eqb negb].
    split; [|intros H; contradiction]. intros _. split; [reflexivity|exact Hs].
Qed.

End IdentifyFurther.

Lemma Inquiry_not_ready_witness :
  Inquiry (fun _ => "") fresh (dwords [0x12; 0; 0; 0; 36]) (bytes [])
  = (0, bytes [], SetStatusCode STATUS_NOTREADY fresh).
Proof.
  apply (Inquiry_not_ready (fun _ => "") fresh (dwords [0x12; 0; 0; 0; 36])
           (bytes [])); reflexivity.
Defined.

Lemma Inquiry_layout_witness :
  snd (fst (Inquiry (fun _ => "QUANTUM FIREBALL1280S   0100") opened
                    (dwords [0x12; 0x20; 0; 0; 36]) (bytes []))) 0 = x7f.
Proof.
  apply (Inquiry_layout (fun _ => "QUANTUM FIREBALL1280S   0100") opened
           (dwords [0x12; 0x20; 0; 0; 36]) (bytes [])); reflexivity.
Defined.

Lemma Inquiry_frame_witness :
  snd (fst (Inquiry (fun _ => "QUANTUM FIREBALL1280S   0100") opened
                    (dwords [0x12; 0; 0; 0; 255])
                    (bytes (repeat 0xEE 40)))) 36 = xee.
Proof.
  apply (Inquiry_frame (fun _ => "QUANTUM FIREBALL1280S   0100") opened
           (dwords [0x12; 0; 0; 0; 255]) (bytes (repeat 0xEE 40)) 36).
  right. lia.
Defined.

Lemma Inquiry_short_allocation_witness :
  fst (fst (Inquiry (fun _ => "QUANTUM FIREBALL1280S   0100") opened
                    (dwords [0x12; 0; 0; 0; 5]) (bytes []))) = 5 /\
  snd (fst (Inquiry (fun _ => "QUANTUM FIREBALL1280S   0100") opened
                    (dwords [0x12; 0; 0; 0; 5]) (bytes []))) 35 = "0"%byte.
Proof.
  apply (Inquiry_short_allocation (fun _ => "QUANTUM FIREBALL1280S   0100")
           opened (dwords [0x12; 0; 0; 0; 5]) (bytes [])).
  - reflexivity.
  - reflexivity.
  - split; [vm_compute; discriminate | reflexivity].
Defined.

Lemma Inquiry_after_Open_witness :
  let '(n, _, d') :=
    Inquiry (fun _ => "") (fst (Open (fun _ => Some 513) "hd.hds" fresh))
            (dwords [0x12; 0; 0; 0; 36]) (bytes []) in
  status_code d' = STATUS_NOTREADY /\ n = 0 /\ ready d' = false.
Proof.
  pose proof (Inquiry_after_Open (fun _ => "") (fun _ => Some 513) "hd.hds"
                fresh (dwords [0x12; 0; 0; 0; 36]) (bytes [])
                eq_refl eq_refl) as H.
  cbv zeta in H.
  destruct (Inquiry (fun _ => "") (fst (Open (fun _ => Some 513) "hd.hds" fresh))
                    (dwords [0x12; 0; 0; 0; 36]) (bytes [])) as [[n b] d'].
  apply H. vm_compute. discriminate.
Defined.

(** ** ModeSelect: paths and status *)

(** X11: without the PF bit, or with a length of 0 or less, [ModeSelect]
    reads nothing of the buffer and returns [TRUE] with the status code
    [STATUS_NOERROR]. *)
Theorem ModeSelect_noop (d : Disk) (cdb : cdb_t) (buf : mem) (length : Z) :
  Z.land (cdb 1) 16 = 0 \/ length <= 0 ->
  ModeSelect d cdb buf length
  = Some (mkOutcome true (SetStatusCode STATUS_NOERROR d) []).
Proof.
  intros H. unfold ModeSelect.
  destruct (Z.eqb_spec (Z.land (cdb 1) 16) 0) as [E|E]; cbn [negb];
    [reflexivity|].
  destruct H as [H|H]; [contradiction|].
  rewrite Z.geb_leb. destruct (Z.leb_spec 12 length); [lia|].
  replace (Z.to_nat length) with 0%nat by lia. cbn [parse_pages].
  rewrite Z.gtb_ltb. destruct (Z.ltb_spec 0 length); [lia|]. reflexivity.
Qed.

Lemma ModeSelect_noop_witness :
  ModeSelect opened (dwords [0x15; 0; 0; 0; 4; 0]) (bytes [3; 0; 0; 0]) 4
  = Some (mkOutcome true (SetStatusCode STATUS_NOERROR opened) []) /\
  ModeSelect opened (pf_cdb 0) (bytes [3; 0; 0; 0]) 0
  = Some (mkOutcome true (SetStatusCode STATUS_NOERROR opened) []).
Proof.
  split.
  - apply (ModeSelect_noop opened (dwords [0x15; 0; 0; 0; 4; 0])
             (bytes [3; 0; 0; 0]) 4).
    left. reflexivity.
  - apply (ModeSelect_noop opened (pf_cdb 0) (bytes [3; 0; 0; 0]) 0).
    right. lia.
Defined.

(** X12: [ModeSelect] changes the status code of the device and nothing
    else, and the status code agrees with what it returns:
    [STATUS_NOERROR] with [TRUE] and [STATUS_INVALIDPRM] with [FALSE]. *)
Theorem ModeSelect_status (d : Disk) (cdb : cdb_t) (buf : mem) (length : Z)
        (o : outcome) :
  ModeSelect d cdb buf length = Some o ->
  dev o = SetStatusCode
            (if ret o then STATUS_NOERROR else STATUS_INVALIDPRM) d /\
  (ret o = true <-> status_code (dev o) = STATUS_NOERROR) /\
  (ret o = false <-> status_code (dev o) = STATUS_INVALIDPRM).
Proof.
  unfold ModeSelect.
  assert (Ht : forall ev,
             let o := mkOutcome true (SetStatusCode STATUS_NOERROR d) ev in
             dev o = SetStatusCode
                       (if ret o then STATUS_NOERROR else STATUS_INVALIDPRM) d /\
             (ret o = true <-> status_code (dev o) = STATUS_NOERROR) /\
             (ret o = false <-> status_code (dev o) = STATUS_INVALIDPRM)).
  { intros ev. cbn. repeat split; auto; discriminate. }
  assert (Hf : forall ev,
             let o := mkOutcome false (SetStatusCode STATUS_INVALIDPRM d) ev in
             dev o = SetStatusCode
                       (if ret o then STATUS_NOERROR else STATUS_INVALIDPRM) d /\
             (ret o = true <-> status_code (dev o) = STATUS_NOERROR) /\
             (ret o = false <-> status_code (dev o) = STATUS_INVALIDPRM)).
  { intros ev. cbn. repeat split; auto; discriminate. }
  destruct (negb (Z.land (cdb 1) 16 =? 0));
    [|intros H; inversion H; apply Ht].
  destruct (length >=? 12).
  - destruct (check_header d buf) as [[|] ev];
      [|intros H; inversion H; apply Hf].
    destruct (parse_pages _ d buf 12 (length - 12)) as [[[|] ev']|];
      intros H; inversion H; [apply Ht|apply Hf].
  - destruct (parse_pages _ d buf 0 length) as [[[|] ev']|];
      intros H; inversion H; [apply Ht|apply Hf].
Qed.

Lemma ModeSelect_status_witness :
  ret (mkOutcome false (SetStatusCode STATUS_INVALIDPRM opened)
                 [Read 0; Read 12]) = false <->
  status_code (dev (mkOutcome false (SetStatusCode STATUS_INVALIDPRM opened)
                              [Read 0; Read 12])) = STATUS_INVALIDPRM.
Proof.
  apply (ModeSelect_status opened (pf_cdb 2) (bytes [3; 0]) 2
           (mkOutcome false (SetStatusCode STATUS_INVALIDPRM opened)
                      [Read 0; Read 12])).
  reflexivity.
Defined.

(** ** ModeSelect: acceptance *)

Lemma bytes_be16 (hi lo : byte) (s : Z) :
  0 <= s < 2 ^ 16 ->
  hi = z2b (Z.shiftr s 8) -> lo = z2b s -> be16 hi lo = s.
Proof.
  intros Hs -> ->. unfold be16. rewrite !b2z_z2b.
  rewrite !Z.shiftr_div_pow2 by lia.
  change (2 ^ 8) with 256. change (2 ^ 16) with 65536 in Hs.
  Z.div_mod_to_equations. lia.
Qed.

(** The [switch] returns [FALSE] for a page 0x03 only, whose byte 0xC or 0xD
    is not that of the sector size, and its trace then ends with the byte
    that differs. *)
Lemma check_page_false (d : Disk) (buf : mem) (off length : Z) :
  fst (check_page d buf off length) = false ->
  buf off = x03 /\
  (buf (off + 12) <> z2b (Z.shiftr (sector_size d) 8) \/
   buf (off + 13) <> z2b (sector_size d)) /\
  (snd (check_page d buf off length) = [Read off; Read (off + 12)] \/
   snd (check_page d buf off length)
   = [Read off; Read (off + 12); Read (off + 13)]).
Proof.
  unfold check_page.
  destruct (Byte.eqb (buf off) x03) eqn:E3.
  - apply byte_eqb_true in E3.
    destruct (Byte.eqb (buf (off + 12)) (z2b (Z.shiftr (sector_size d) 8)))
      eqn:E12; cbn [negb fst snd].
    + destruct (Byte.eqb (buf (off + 13)) (z2b (sector_size d))) eqn:E13;
        cbn [negb fst snd]; [discriminate|].
      apply byte_eqb_false in E13. intros _. tauto.
    + apply byte_eqb_false in E12. intros _. tauto.
  - destruct (Byte.eqb (buf off) x08); cbn [fst]; discriminate.
Qed.

(** The [switch] returns [TRUE] for a page 0x03 only when its bytes 0xC and
    0xD are those of the sector size. *)
Lemma check_page_true (d : Disk) (buf : mem) (off length : Z) :
  fst (check_page d buf off length) = true ->
  buf off = x03 ->
  buf (off + 12) = z2b (Z.shiftr (sector_size d) 8) /\
  buf (off + 13) = z2b (sector_size d).
Proof.
  unfold check_page. intros H E3. rewrite E3 in H.
  change (Byte.eqb x03 x03) with true in H. cbv iota zeta in H.
  destruct (Byte.eqb (buf (off + 12)) (z2b (Z.shiftr (sector_size d) 8)))
    eqn:E12; cbn [negb fst] in H; [|discriminate].
  destruct (Byte.eqb (buf (off + 13)) (z2b (sector_size d))) eqn:E13;
    cbn [negb fst] in H; [|discriminate].
  apply byte_eqb_true in E12, E13. tauto.
Qed.

(** A loop that runs to its end has found every page 0x03 in order. *)
Lemma parse_pages_true (d : Disk) (buf : mem) (fuel : nat) :
  forall off length ev,
    parse_pages fuel d buf off length = Some (true, ev) ->
    forall p, In p (page_starts fuel buf off length) -> buf p = x03 ->
              buf (p + 12) = z2b (Z.shiftr (sector_size d) 8) /\
              buf (p + 13) = z2b (sector_size d).
Proof.
  induction fuel as [|fuel IH]; intros off length ev H p Hp E3.
  - destruct Hp.
  - cbn [parse_pages page_starts] in *.
    destruct (length >? 0); [|destruct Hp].
    unfold page_step in H.
    pose proof (check_page_true d buf off length) as Hc.
    destruct (check_page d buf off length) as [[|] ev0]; [|discriminate].
    destruct (parse_pages fuel d buf _ _) as [[[|] ev']|] eqn:E;
      try discriminate.
    destruct Hp as [<-|Hp].
    + apply Hc; [reflexivity|exact E3].
    + apply (IH _ _ _ E p Hp E3).
Qed.

(** When [ModeSelect] accepts a parameter list and when not, on the bytes
    the code compares. *)
Lemma ModeSelect_ret_true (d : Disk) (cdb : cdb_t) (buf : mem) (length : Z)
      (o : outcome) :
  Z.land (cdb 1) 16 <> 0 ->
  ModeSelect d cdb buf length = Some o ->
  (ret o = true <->
   (12 <= length ->
    buf 9 = z2b (Z.shiftr (sector_size d) 16) /\
    buf 10 = z2b (Z.shiftr (sector_size d) 8) /\
    buf 11 = z2b (sector_size d)) /\
   (forall p, In p (pages buf length) -> buf p = x03 ->
              buf (p + 12) = z2b (Z.shiftr (sector_size d) 8) /\
              buf (p + 13) = z2b (sector_size d))).
Proof.
  intros Hpf. unfold ModeSelect, pages.
  destruct (Z.eqb_spec (Z.land (cdb 1) 16) 0) as [E|_]; [contradiction|].
  cbn [negb]. rewrite Z.geb_leb.
  assert (Hno : forall fuel off len ev,
             parse_pages fuel d buf off len = Some (false, ev) ->
             ~ (forall p, In p (page_starts fuel buf off len) -> buf p = x03 ->
                          buf (p + 12) = z2b (Z.shiftr (sector_size d) 8) /\
                          buf (p + 13) = z2b (sector_size d))).
  { induction fuel as [|fuel IH]; intros off len ev H Hall.
    - cbn [parse_pages] in H. destruct (len >? 0); discriminate.
    - cbn [parse_pages page_starts] in *.
      destruct (len >? 0); [|discriminate].
      unfold page_step in H.
      pose proof (check_page_false d buf off len) as Hc.
      destruct (check_page d buf off len) as [[|] ev0].
      + destruct (parse_pages fuel d buf _ _) as [[[|] ev']|] eqn:E;
          try discriminate.
        apply (IH _ _ _ E). intros p Hp. apply Hall. right. exact Hp.
      + destruct (Hc eq_refl) as (E3 & Hne & _).
        destruct (Hall off (or_introl eq_refl) E3). tauto. }
  destruct (Z.leb_spec 12 length) as [Hl|Hl].
  - pose proof (check_header_true d buf) as Hh.
    destruct (check_header d buf) as [[|] ev]; cbn [fst] in Hh.
    + destruct (parse_pages _ d buf 12 (length - 12)) as [[[|] ev']|] eqn:E;
        intros H; inversion H; subst o; cbn [ret].
      * split; [intros _|reflexivity]. split; [intros _; apply Hh; reflexivity|].
        apply (parse_pages_true _ _ _ _ _ _ E).
      * split; [discriminate|]. intros [_ Hall]. exfalso.
        apply (Hno _ _ _ _ E Hall).
    + intros H; inversion H; subst o; cbn [ret].
      split; [discriminate|]. intros [Hall _]. apply Hh in Hall; [|exact Hl].
      discriminate.
  - destruct (parse_pages _ d buf 0 length) as [[[|] ev']|] eqn:E;
      intros H; inversion H; subst o; cbn [ret].
    + split; [intros _|reflexivity]. split; [intros; lia|].
      apply (parse_pages_true _ _ _ _ _ _ E).
    + split; [discriminate|]. intros [_ Hall]. exfalso.
      apply (Hno _ _ _ _ E Hall).
Qed.

(** Acceptance in terms of the big-endian fields, for a sector size that
    fits the two-byte field of page 0x03. *)
Lemma ModeSelect_ret_true_fields (d : Disk) (cdb : cdb_t) (buf : mem)
      (length : Z) (o : outcome) :
  Z.land (cdb 1) 16 <> 0 ->
  0 <= size d < 16 ->
  ModeSelect d cdb buf length = Some o ->
  (ret o = true <->
   (12 <= length -> be24 (buf 9) (buf 10) (buf 11) = Z.shiftl 1 (size d)) /\
   (forall p, In p (pages buf length) -> buf p = x03 ->
              be16 (buf (p + 12)) (buf (p + 13)) = Z.shiftl 1 (size d))).
Proof.
  intros Hpf Hs H. rewrite (ModeSelect_ret_true d cdb buf length o Hpf H).
  assert (Hb : Z.shiftl 1 (size d) < 2 ^ 16) by (apply shiftl_1_bound; lia).
  pose proof (shiftl_1_pos (size d)) as Hp.
  rewrite sector_size_exact by lia.
  split; intros [Hh Hall]; split.
  - intros Hl. destruct (Hh Hl) as (H9 & H10 & H11).
    apply bytes_be24; [lia|assumption..].
  - intros p Hin E3. destruct (Hall p Hin E3) as [H12 H13].
    apply bytes_be16; [lia|assumption..].
  - intros Hl. apply be24_bytes. apply Hh. exact Hl.
  - intros p Hin E3. apply be16_bytes. apply Hall; assumption.
Qed.

(** X13: on a device whose sector size fits the two-byte field of page 0x03
    ([size] below 16; [Open] sets 9), [ModeSelect] with the PF bit set
    returns [TRUE] exactly when the header, if the length is at least 12,
    holds the sector size in bytes 9 to 11 and every page 0x03 of the list
    holds it in bytes 0xC and 0xD. *)
Theorem ModeSelect_accepts_iff (d : Disk) (cdb : cdb_t) (buf : mem)
        (length : Z) (o : outcome) :
  Z.land (cdb 1) 16 <> 0 ->
  0 <= size d < 16 ->
  ModeSelect d cdb buf length = Some o ->
  (ret o = true <->
   (12 <= length -> be24 (buf 9) (buf 10) (buf 11) = Z.shiftl 1 (size d)) /\
   (forall p, In p (pages buf length) -> buf p = x03 ->
              be16 (buf (p + 12)) (buf (p + 13)) = Z.shiftl 1 (size d))).
Proof.
  exact (ModeSelect_ret_true_fields d cdb buf length o).
Qed.

Lemma ModeSelect_accepts_iff_witness :
  let o := mkOutcome true (SetStatusCode STATUS_NOERROR opened)
                     [Read 9; Read 10; Read 11] in
  ret o = true <->
  (12 <= 12 ->
   be24 (bytes header_only 9) (bytes header_only 10) (bytes header_only 11)
   = Z.shiftl 1 (size opened)) /\
  (forall p, In p (pages (bytes header_only) 12) ->
             bytes header_only p = x03 ->
             be16 (bytes header_only (p + 12)) (bytes header_only (p + 13))
             = Z.shiftl 1 (size opened)).
Proof.
  apply (ModeSelect_accepts_iff opened (pf_cdb 12) (bytes header_only) 12
           (mkOutcome true (SetStatusCode STATUS_NOERROR opened)
                      [Read 9; Read 10; Read 11])).
  - vm_compute. discriminate.
  - split; [vm_compute; discriminate | reflexivity].
  - reflexivity.
Defined.

(** ** ModeSelect: how far it reads *)

(** The [switch] on a page reads within the remaining bytes and the 13 that
    follow. *)
Lemma check_page_reads_within (d : Disk) (buf : mem) (off length : Z) :
  0 < length ->
  Forall (fun x => off <= x < off + length + 13)
         (reads (snd (check_page d buf off length))).
Proof.
  intros Hl. unfold check_page.
  destruct (Byte.eqb (buf off) x03).
  - case_negb; cbn [snd reads];
      repeat (apply Forall_cons; [lia|]); apply Forall_nil.
  - destruct (Byte.eqb (buf off) x08); cbn [snd reads].
    + apply Forall_cons; [lia|].
      apply Forall_reads_app; [|apply Forall_nil].
      eapply Forall_impl; [|apply dump_reads]. cbv beta. intros x Hx. lia.
    + apply Forall_cons; [lia|]. apply Forall_nil.
Qed.

Lemma parse_pages_reads_within (d : Disk) (buf : mem) (fuel : nat) :
  forall off length bound r ev,
    0 <= off -> off + length = bound ->
    parse_pages fuel d buf off length = Some (r, ev) ->
    Forall (fun x => 0 <= x < bound + 13) (reads ev).
Proof.
  induction fuel as [|fuel IH]; intros off length bound r ev Ho Hb.
  - cbn [parse_pages]. destruct (length >? 0); [discriminate|].
    intros H. inversion H. apply Forall_nil.
  - cbn [parse_pages]. rewrite Z.gtb_ltb.
    destruct (Z.ltb_spec 0 length) as [Hl|Hl];
      [|intros H; inversion H; apply Forall_nil].
    pose proof (check_page_reads_within d buf off length Hl) as Hc.
    assert (Hc' : Forall (fun x => 0 <= x < bound + 13)
                         (reads (snd (check_page d buf off length)))).
    { eapply Forall_impl; [|exact Hc]. cbv beta. intros x Hx. lia. }
    clear Hc. unfold page_step.
    destruct (check_page d buf off length) as [[|] ev0]; cbn [snd] in Hc'.
    + pose proof (b2z_range (buf (off + 1))) as Hb1.
      destruct (parse_pages fuel d buf _ _) as [[r' ev']|] eqn:E;
        [|discriminate].
      assert (Hrec : Forall (fun x => 0 <= x < bound + 13) (reads ev')).
      { apply (IH (off + (b2z (buf (off + 1)) + 2))
                  (length - (b2z (buf (off + 1)) + 2)) bound r' ev');
          [lia|lia|exact E]. }
      intros H. inversion H; subst r' ev. clear H.
      apply Forall_reads_app; [apply Forall_reads_app|exact Hrec].
      * exact Hc'.
      * cbn [reads]. apply Forall_cons; [lia|apply Forall_nil].
    + intros H. inversion H; subst r ev. exact Hc'.
Qed.

(** X14: [ModeSelect] never reads before the buffer, and never more than 13
    bytes past the [length] bytes supplied: every offset it reads is in
    [0, length + 13). *)
Theorem ModeSelect_reads_within (d : Disk) (cdb : cdb_t) (buf : mem)
        (length : Z) (o : outcome) :
  ModeSelect d cdb buf length = Some o ->
  Forall (fun x => 0 <= x < length + 13) (reads (trace o)).
Proof.
  unfold ModeSelect.
  destruct (negb (Z.land (cdb 1) 16 =? 0));
    [|intros H; inversion H; apply Forall_nil].
  rewrite Z.geb_leb.
  destruct (Z.leb_spec 12 length) as [Hl|Hl].
  - pose proof (check_header_trace d buf) as Htr.
    assert (Hh : Forall (fun x => 0 <= x < length + 13)
                        (reads (snd (check_header d buf)))).
    { destruct Htr as [->|[->| ->]]; cbn [reads];
        repeat (apply Forall_cons; [lia|]); apply Forall_nil. }
    destruct (check_header d buf) as [[|] ev]; cbn [snd] in Hh;
      [|intros H; inversion H; exact Hh].
    destruct (parse_pages _ d buf 12 (length - 12)) as [[r ev']|] eqn:E;
      [|discriminate].
    assert (Hr : Forall (fun x => 0 <= x < length + 13) (reads ev')).
    { apply (parse_pages_reads_within d buf (Z.to_nat (length - 12)) 12
               (length - 12) length r ev'); [lia|lia|exact E]. }
    destruct r; intros H; inversion H; cbn [trace];
      apply Forall_reads_app; assumption.
  - destruct (parse_pages _ d buf 0 length) as [[r ev']|] eqn:E;
      [|discriminate].
    assert (Hr : Forall (fun x => 0 <= x < length + 13) (reads ev')).
    { apply (parse_pages_reads_within d buf (Z.to_nat length) 0 length length
               r ev'); [lia|lia|exact E]. }
    destruct r; intros H; inversion H; cbn [trace app]; exact Hr.
Qed.

Lemma ModeSelect_reads_within_witness :
  Forall (fun x => 0 <= x < 2 + 13) [0; 12].
Proof.
  apply (ModeSelect_reads_within opened (pf_cdb 2) (bytes [3; 0]) 2
           (mkOutcome false (SetStatusCode STATUS_INVALIDPRM opened)
                      [Read 0; Read 12])).
  reflexivity.
Defined.

(** ** ModeSelect: the bytes that matter *)

Lemma dump_ext (buf buf' : mem) (off length : Z) :
  (forall o, off <= o < off + length -> buf o = buf' o) ->
  dump buf off length = dump buf' off length.
Proof.
  intros H. unfold dump.
  assert (Hl : forall l, (forall i, In i l -> (i < Z.to_nat length)%nat) ->
                         flat_map (fun i => [Read (off + Z.of_nat i);
                                             PrintHex (buf (off + Z.of_nat i))]) l
                         = flat_map (fun i => [Read (off + Z.of_nat i);
                                               PrintHex (buf' (off + Z.of_nat i))]) l).
  { induction l as [|i l IH]; intros Hi; [reflexivity|].
    cbn [flat_map]. rewrite IH by (intros j Hj; apply Hi; right; exact Hj).
    rewrite (H (off + Z.of_nat i)); [reflexivity|].
    specialize (Hi i (or_introl eq_refl)). lia. }
  apply Hl. intros i Hi. apply in_seq in Hi. lia.
Qed.

Lemma check_page_ext (d : Disk) (buf buf' : mem) (off length : Z) :
  0 < length ->
  (forall o, off <= o < off + length + 13 -> buf o = buf' o) ->
  check_page d buf off length = check_page d buf' off length.
Proof.
  intros Hl H. unfold check_page.
  rewrite (H off), (H (off + 12)), (H (off + 13)) by lia.
  rewrite (dump_ext buf buf' off length) by (intros o Ho; apply H; lia).
  reflexivity.
Qed.

Lemma parse_pages_ext (d : Disk) (buf buf' : mem) (fuel : nat) :
  forall off length bound,
    off + length = bound ->
    (forall o, off <= o < bound + 13 -> buf o = buf' o) ->
    parse_pages fuel d buf off length = parse_pages fuel d buf' off length.
Proof.
  induction fuel as [|fuel IH]; intros off length bound Hb H.
  - reflexivity.
  - cbn [parse_pages]. rewrite Z.gtb_ltb.
    destruct (Z.ltb_spec 0 length) as [Hl|Hl]; [|reflexivity].
    unfold page_step.
    rewrite (check_page_ext d buf buf' off length Hl)
      by (intros o Ho; apply H; lia).
    rewrite (H (off + 1)) by lia.
    destruct (check_page d buf' off length) as [[|] ev0]; [|reflexivity].
    pose proof (b2z_range (buf' (off + 1))) as Hb1.
    rewrite (IH (off + (b2z (buf' (off + 1)) + 2))
                (length - (b2z (buf' (off + 1)) + 2)) bound);
      [reflexivity|lia|].
    intros o Ho. apply H. lia.
Qed.

(** X15: the outcome of [ModeSelect] depends on the buffer only through the
    bytes from offset 9 on when the length is at least 12 (bytes 0 to 8 of
    the header are never looked at), from offset 0 on otherwise, and up to
    offset [length + 12]: two buffers that agree there give the same return
    value, device and trace. *)
Theorem ModeSelect_bytes_that_matter (d : Disk) (cdb : cdb_t) (buf buf' : mem)
        (length : Z) :
  (forall o, (if 12 <=? length then 9 else 0) <= o < length + 13 ->
             buf o = buf' o) ->
  ModeSelect d cdb buf length = ModeSelect d cdb buf' length.
Proof.
  intros H. unfold ModeSelect.
  destruct (negb (Z.land (cdb 1) 16 =? 0)); [|reflexivity].
  rewrite Z.geb_leb.
  destruct (Z.leb_spec 12 length) as [Hl|Hl].
  - assert (Hh : check_header d buf = check_header d buf').
    { unfold check_header. rewrite (H 9), (H 10), (H 11) by lia.
      reflexivity. }
    rewrite Hh. destruct (check_header d buf') as [[|] ev]; [|reflexivity].
    rewrite (parse_pages_ext d buf buf' (Z.to_nat (length - 12)) 12
               (length - 12) length); [reflexivity|lia|].
    intros o Ho. apply H. lia.
  - rewrite (parse_pages_ext d buf buf' (Z.to_nat length) 0 length length);
      [reflexivity|lia|].
    intros o Ho. apply H. lia.
Qed.

Lemma ModeSelect_bytes_that_matter_witness :
  ModeSelect opened (pf_cdb 12) (bytes header_only) 12
  = ModeSelect opened (pf_cdb 12)
               (bytes [1; 2; 3; 4; 5; 6; 7; 8; 9; 0; 2; 0]) 12.
Proof.
  apply (ModeSelect_bytes_that_matter opened (pf_cdb 12) (bytes header_only)
           (bytes [1; 2; 3; 4; 5; 6; 7; 8; 9; 0; 2; 0]) 12).
  intros o Ho. change (12 <=? 12) with true in Ho. cbv iota in Ho.
  unfold bytes, header_only.
  destruct (Z.ltb_spec o 0); [reflexivity|].
  assert (Hn : exists k, (9 <= k)%nat /\ Z.to_nat o = k).
  { exists (Z.to_nat o). split; [lia|reflexivity]. }
  destruct Hn as (k & Hk & ->).
  do 9 (destruct k as [|k]; [lia|]). reflexivity.
Defined.

(** ** ModeSelect: where a rejection stops *)

Lemma parse_pages_false (d : Disk) (buf : mem) (fuel : nat) :
  forall off length ev,
    parse_pages fuel d buf off length = Some (false, ev) ->
    exists p pre,
      In p (page_starts fuel buf off length) /\
      buf p = x03 /\
      (buf (p + 12) <> z2b (Z.shiftr (sector_size d) 8) \/
       buf (p + 13) <> z2b (sector_size d)) /\
      (ev = pre ++ [Read p; Read (p + 12)] \/
       ev = pre ++ [Read p; Read (p + 12); Read (p + 13)]).
Proof.
  induction fuel as [|fuel IH]; intros off length ev H.
  - cbn [parse_pages] in H. destruct (length >? 0); discriminate.
  - cbn [parse_pages page_starts] in *.
    destruct (length >? 0); [|discriminate].
    unfold page_step in H.
    pose proof (check_page_false d buf off length) as Hc.
    destruct (check_page d buf off length) as [[|] ev0]; cbn [fst snd] in Hc.
    + destruct (parse_pages fuel d buf _ _) as [[[|] ev']|] eqn:E;
        try discriminate.
      inversion H; subst ev. clear H.
      destruct (IH _ _ _ E) as (p & pre & Hin & E3 & Hne & Hev).
      exists p, ((ev0 ++ [Read (off + 1)]) ++ pre).
      split; [right; exact Hin|]. split; [exact E3|]. split; [exact Hne|].
      destruct Hev as [-> | ->]; [left|right]; rewrite app_assoc;
        reflexivity.
    + inversion H; subst ev. clear H.
      destruct (Hc eq_refl) as (E3 & Hne & Hev).
      exists off, []. split; [left; reflexivity|]. split; [exact E3|].
      split; [exact Hne|]. exact Hev.
Qed.

(** X16: a [ModeSelect] that returns [FALSE] stops at the bytes that did not
    match: either the header check failed and the trace is made of reads of
    bytes 9 to 11 only, or some page 0x03 of the list has a byte 0xC or 0xD
    that is not that of the sector size and the trace ends with the reads of
    that page's code and of these bytes; nothing is read or logged after. *)
Theorem ModeSelect_abort (d : Disk) (cdb : cdb_t) (buf : mem) (length : Z)
        (o : outcome) :
  ModeSelect d cdb buf length = Some o ->
  ret o = false ->
  (12 <= length /\
   fst (check_header d buf) = false /\
   (trace o = [Read 9] \/ trace o = [Read 9; Read 10] \/
    trace o = [Read 9; Read 10; Read 11])) \/
  (exists p pre,
      In p (pages buf length) /\
      buf p = x03 /\
      (buf (p + 12) <> z2b (Z.shiftr (sector_size d) 8) \/
       buf (p + 13) <> z2b (sector_size d)) /\
      (trace o = pre ++ [Read p; Read (p + 12)] \/
       trace o = pre ++ [Read p; Read (p + 12); Read (p + 13)])).
Proof.
  unfold ModeSelect, pages.
  destruct (negb (Z.land (cdb 1) 16 =? 0));
    [|intros H; inversion H; discriminate].
  rewrite Z.geb_leb.
  destruct (Z.leb_spec 12 length) as [Hl|Hl].
  - pose proof (check_header_trace d buf) as Htr.
    destruct (check_header d buf) as [[|] ev]; cbn [fst snd] in *.
    + destruct (parse_pages _ d buf 12 (length - 12)) as [[[|] ev']|] eqn:E;
        intros H; inversion H; subst o; cbn [ret trace]; [discriminate|].
      intros _. right.
      destruct (parse_pages_false _ _ _ _ _ _ E)
        as (p & pre & Hin & E3 & Hne & Hev).
      exists p, (ev ++ pre). split; [exact Hin|]. split; [exact E3|].
      split; [exact Hne|].
      destruct Hev as [-> | ->]; [left|right]; rewrite <- app_assoc;
        reflexivity.
    + intros H; inversion H; subst o; cbn [ret trace]. intros _. left.
      split; [exact Hl|]. split; [reflexivity|exact Htr].
  - destruct (parse_pages _ d buf 0 length) as [[[|] ev']|] eqn:E;
      intros H; inversion H; subst o; cbn [ret trace app]; [discriminate|].
    intros _. right.
    destruct (parse_pages_false _ _ _ _ _ _ E)
      as (p & pre & Hin & E3 & Hne & Hev).
    exists p, pre. auto.
Qed.

Lemma ModeSelect_abort_witness :
  let o := mkOutcome false (SetStatusCode STATUS_INVALIDPRM opened)
                     [Read 9; Read 10; Read 11; Read 12; Read 24] in
  (12 <= 40 /\
   fst (check_header opened (bytes rejected_list)) = false /\
   (trace o = [Read 9] \/ trace o = [Read 9; Read 10] \/
    trace o = [Read 9; Read 10; Read 11])) \/
  (exists p pre,
      In p (pages (bytes rejected_list) 40) /\
      bytes rejected_list p = x03 /\
      (bytes rejected_list (p + 12) <> z2b (Z.shiftr (sector_size opened) 8) \/
       bytes rejected_list (p + 13) <> z2b (sector_size opened)) /\
      (trace o = pre ++ [Read p; Read (p + 12)] \/
       trace o = pre ++ [Read p; Read (p + 12); Read (p + 13)])).
Proof.
  apply (ModeSelect_abort opened (pf_cdb 40) (bytes rejected_list) 40
           (mkOutcome false (SetStatusCode STATUS_INVALIDPRM opened)
                      [Read 9; Read 10; Read 11; Read 12; Read 24])).
  - reflexivity.
  - reflexivity.
Defined.

(** ** Sequences of calls: what stays *)

Section CallsProperties.

Variable GetPaddedName : Disk -> string.

(** [Inquiry] and [ModeSelect] touch the device through [SetStatusCode]
    only. *)
Lemma Inquiry_dev (d : Disk) (cdb : cdb_t) (buf : mem) :
  exists s, snd (Inquiry GetPaddedName d cdb buf) = SetStatusCode s d.
Proof.
  unfold Inquiry. destruct (negb (Z.land (cdb 1) 1 =? 0));
    [eexists; reflexivity|].
  destruct (negb (IsReady d)); eexists; reflexivity.
Qed.

Lemma ModeSelect_dev (d : Disk) (cdb : cdb_t) (buf : mem) (length : Z)
      (o : outcome) :
  ModeSelect d cdb buf length = Some o ->
  exists s, dev o = SetStatusCode s d.
Proof.
  unfold ModeSelect.
  destruct (negb (Z.land (cdb 1) 16 =? 0));
    [|intros H; inversion H; eexists; reflexivity].
  destruct (length >=? 12).
  - destruct (check_header d buf) as [[|] ev];
      [|intros H; inversion H; eexists; reflexivity].
    destruct (parse_pages _ d buf 12 (length - 12)) as [[[|] ev']|];
      intros H; inversion H; eexists; reflexivity.
  - destruct (parse_pages _ d buf 0 length) as [[[|] ev']|];
      intros H; inversion H; eexists; reflexivity.
Qed.

Lemma after_call_same_setup (d : Disk) (c : call) :
  same_setup d (after_call GetPaddedName d c).
Proof.
  destruct c as [|cdb buf|cdb buf length]; cbn [after_call].
  - repeat split.
  - destruct (Inquiry_dev d cdb buf) as [s ->]. repeat split.
  - destruct (ModeSelect d cdb buf length) as [o|] eqn:E; [|repeat split].
    destruct (ModeSelect_dev d cdb buf length o E) as [s ->]. repeat split.
Qed.

Lemma after_calls_same_setup (cs : list call) :
  forall d, same_setup d (after_calls GetPaddedName cs d).
Proof.
  unfold after_calls.
  induction cs as [|c cs IH]; intros d; cbn [fold_left].
  - repeat split.
  - pose proof (after_call_same_setup d c) as H1.
    pose proof (IH (after_call GetPaddedName d c)) as H2.
    unfold same_setup in *.
    destruct H1 as (A1 & A2 & A3 & A4 & A5 & A6 & A7 & A8 & A9).
    destruct H2 as (B1 & B2 & B3 & B4 & B5 & B6 & B7 & B8 & B9).
    repeat split; congruence.
Qed.

(** X17: no sequence of [Reset], [Inquiry] and [ModeSelect] calls changes
    whether the device is ready, its sector size exponent, its block count,
    its vendor, product and revision, its write protection, its logical
    unit or its path: these calls touch the lock, attention and reset flags
    and the status code only. *)
Theorem calls_keep_setup (cs : list call) (d : Disk) :
  let d' := after_calls GetPaddedName cs d in
  ready d' = ready d /\ size d' = size d /\ blocks d' = blocks d /\
  vendor d' = vendor d /\ product d' = product d /\
  revision d' = revision d /\ protect d' = protect d /\ lun d' = lun d /\
  diskpath d' = diskpath d.
Proof.
  exact (after_calls_same_setup cs d).
Qed.

(** X18: once [Open] has succeeded, after any sequence of [Reset],
    [Inquiry] and [ModeSelect] calls the device is still ready with 512-byte
    sectors and the block count, product name and path that [Open] gave it;
    an [Inquiry] with the EVPD bit clear still ends with [STATUS_NOERROR],
    and a [ModeSelect] with the PF bit set returns [TRUE] exactly when the
    header, if any, and every page 0x03 hold 512. *)
Theorem opened_stays_opened (fs : Fileio) (path : string) (d d1 : Disk)
        (cs : list call) :
  Open fs path d = (d1, None) ->
  let d2 := after_calls GetPaddedName cs d1 in
  ready d2 = true /\ size d2 = 9 /\ blocks d2 = blocks d1 /\
  product d2 = product d1 /\ diskpath d2 = Some path /\
  (forall cdb buf,
      Z.land (cdb 1) 1 = 0 ->
      status_code (snd (Inquiry GetPaddedName d2 cdb buf)) = STATUS_NOERROR) /\
  (forall cdb buf length o,
      Z.land (cdb 1) 16 <> 0 ->
      ModeSelect d2 cdb buf length = Some o ->
      (ret o = true <->
       (12 <= length -> be24 (buf 9) (buf 10) (buf 11) = 512) /\
       (forall p, In p (pages buf length) -> buf p = x03 ->
                  be16 (buf (p + 12)) (buf (p + 13)) = 512))).
Proof.
  intros H. cbv zeta.
  pose proof (after_calls_same_setup cs d1) as Hs.
  destruct Hs as (A1 & A2 & A3 & _ & A5 & _ & _ & _ & A9).
  pose proof (Open_size fs path d d1 H) as [Hsz Hrd].
  assert (Hp : diskpath d1 = Some path).
  { apply Open_success in H. destruct H as (sz & _ & _ & _ & ->).
    reflexivity. }
  rewrite Hrd in A1. rewrite Hsz in A2. rewrite Hp in A9.
  repeat (split; [assumption|]). split.
  - intros cdb buf He. unfold Inquiry, IsReady. rewrite He, A1. reflexivity.
  - intros cdb buf length o Hpf Ho.
    pose proof (ModeSelect_ret_true_fields _ cdb buf length o Hpf
                  ltac:(rewrite A2; lia) Ho) as Hi.
    rewrite A2 in Hi. exact Hi.
Qed.

End CallsProperties.

Lemma opened_stays_opened_witness :
  let d2 := after_calls (fun _ => "")
              [CallModeSelect (pf_cdb 40) (bytes rejected_list) 40;
               CallInquiry (dwords [0x12; 1; 0; 0; 36]) (bytes []);
               CallReset] opened in
  ready d2 = true /\ size d2 = 9 /\ blocks d2 = blocks opened /\
  product d2 = product opened /\ diskpath d2 = Some "hd.hds".
Proof.
  pose proof (opened_stays_opened (fun _ => "")
                (fun _ => Some (40 * 2 ^ 20)) "hd.hds" fresh opened
                [CallModeSelect (pf_cdb 40) (bytes rejected_list) 40;
                 CallInquiry (dwords [0x12; 1; 0; 0; 36]) (bytes []);
                 CallReset] eq_refl) as H.
  cbv zeta in *. destruct H as (H1 & H2 & H3 & H4 & H5 & _).
  repeat (split; [assumption|]). assumption.
Defined.

(** ** ModeSelect: number of iterations *)

Lemma parse_pages_half (d : Disk) (buf : mem) (fuel : nat) :
  forall off length,
    (Z.to_nat ((length + 1) / 2) <= fuel)%nat ->
    exists r, parse_pages fuel d buf off length = Some r.
Proof.
  induction fuel as [|fuel IH]; intros off length Hf.
  - cbn [parse_pages]. rewrite Z.gtb_ltb.
    destruct (Z.ltb_spec 0 length) as [Hl|Hl]; [|eexists; reflexivity].
    exfalso. assert (1 <= (length + 1) / 2) by (apply Z.div_le_lower_bound; lia).
    lia.
  - cbn [parse_pages]. rewrite Z.gtb_ltb.
    destruct (Z.ltb_spec 0 length) as [Hl|Hl]; [|eexists; reflexivity].
    destruct (page_step d buf off length) as [off' length' ev|ev] eqn:E;
      [|eexists; reflexivity].
    apply page_step_next in E. destruct E as [_ ->].
    pose proof (b2z_range (buf (off + 1))) as Hb.
    destruct (IH off' (length - (b2z (buf (off + 1)) + 2))) as [[r ev'] ->].
    + assert ((length - (b2z (buf (off + 1)) + 2) + 1) / 2
              <= (length + 1) / 2 - 1).
      { Z.div_mod_to_equations. lia. }
      lia.
    + eexists; reflexivity.
Qed.

(** X19: the page loop runs at most half the remaining length, rounded up,
    times: a page takes at least two bytes, so that many iterations reach
    its end for every buffer. *)
Theorem parse_pages_iterations (d : Disk) (buf : mem) (off length : Z) :
  exists r, forall fuel,
      (Z.to_nat ((length + 1) / 2) <= fuel)%nat ->
      parse_pages fuel d buf off length = Some r.
Proof.
  destruct (parse_pages_half d buf (Z.to_nat ((length + 1) / 2)) off length)
    as [r Hr]; [lia|].
  exists r. intros fuel Hf.
  apply (parse_pages_more_fuel d buf (Z.to_nat ((length + 1) / 2)));
    assumption.
Qed.

Lemma parse_pages_iterations_witness :
  exists r, parse_pages 2 opened (bytes [0x55; 0; 0x56; 0]) 0 4 = Some r.
Proof.
  destruct (parse_pages_iterations opened (bytes [0x55; 0; 0x56; 0]) 0 4)
    as [r Hr].
  exists r. apply Hr. apply le_n.
Defined.

(** ** The product name and the capacity *)

(** What [sprintf("%d")] wrote reads back as the number printed. *)
Lemma dec_read_back (z : Z) :
  option_map Z.of_int (NilZero.int_of_string (dec z)) = Some z.
Proof.
  unfold dec. rewrite NilZero.isi.
  - cbn [option_map]. rewrite DecimalZ.of_to. reflexivity.
  - destruct z as [|p|p]; cbn; try discriminate.
    intros H. inversion H as [H0].
    apply (DecimalPos.Unsigned.to_uint_nonnil p H0).
  - destruct z as [|p|p]; cbn; try discriminate.
    intros H. inversion H as [H0].
    apply (DecimalPos.Unsigned.to_uint_nonnil p H0).
Qed.

Lemma dec_inj (a b : Z) : dec a = dec b -> a = b.
Proof.
  intros H. pose proof (dec_read_back a) as Ha. rewrite H in Ha.
  rewrite dec_read_back in Ha. inversion Ha. reflexivity.
Qed.

Lemma append_inj_l (p x y : string) : (p ++ x)%string = (p ++ y)%string -> x = y.
Proof.
  induction p as [|c p IH]; cbn; intros H; [exact H|].
  inversion H. apply IH. assumption.
Qed.

Lemma append_S_inj (x y : string) : (x ++ "S")%string = (y ++ "S")%string -> x = y.
Proof.
  revert y. induction x as [|c x IH]; intros [|c' y] H; cbn in H.
  - reflexivity.
  - inversion H as [[Hc Hy]]. destruct y; discriminate.
  - inversion H as [[Hc Hx]]. destruct x; discriminate.
  - inversion H. f_equal. apply IH. assumption.
Qed.

(** X20: below 2000 the product name tells the capacity: two capacities
    with the same name are equal.  From 2000 on it tells the capacity to
    the hundred only: capacities with the same quotient by 100 have the
    same name. *)
Theorem product_name_capacity (a b : Z) :
  (0 <= a < 2000 -> 0 <= b < 2000 ->
   product_name a = product_name b -> a = b) /\
  (2000 <= a -> 2000 <= b -> a / 100 = b / 100 ->
   product_name a = product_name b).
Proof.
  split.
  - intros Ha Hb. unfold product_name.
    repeat match goal with
           | |- context [?x <? ?y] => destruct (Z.ltb_spec x y); try lia
           end;
      intros Heq;
      first [ apply append_inj_l in Heq; apply append_S_inj in Heq;
              apply dec_inj in Heq; exact Heq
            | pose proof (f_equal (String.get 0) Heq) as Hc;
              cbn in Hc; discriminate Hc ].
  - intros Ha Hb H. unfold product_name.
    repeat match goal with
           | |- context [?x <? ?y] => destruct (Z.ltb_spec x y); try lia
           end.
    assert (E1 : a / 1000 = b / 1000).
    { Z.div_mod_to_equations. lia. }
    assert (E2 : a mod 1000 / 100 = b mod 1000 / 100).
    { Z.div_mod_to_equations. lia. }
    rewrite E1, E2. reflexivity.
Qed.

Lemma product_name_capacity_witness :
  product_name 2000 = product_name 2099.
Proof.
  apply (product_name_capacity 2000 2099); [lia | lia | reflexivity].
Defined.

(** ** ModeSelect: lists it reads within their length *)

(** X21: when every page of the list starts at least two bytes before the
    end, and every page 0x03 at least 14, [ModeSelect] reads no byte
    outside the [length] bytes supplied, even when the length byte of the
    last page runs past the end. *)
Theorem ModeSelect_whole_pages (d : Disk) (cdb : cdb_t) (buf : mem)
        (length : Z) (o : outcome) :
  (forall p, In p (pages buf length) ->
             p + 2 <= length /\ (buf p = x03 -> p + 14 <= length)) ->
  ModeSelect d cdb buf length = Some o ->
  Forall (fun x => 0 <= x < length) (reads (trace o)).
Proof.
  exact (ModeSelect_reads_in_bounds d cdb buf length o).
Qed.

Lemma ModeSelect_whole_pages_witness :
  Forall (fun x => 0 <= x < 15) [9; 10; 11; 12; 13].
Proof.
  apply (ModeSelect_whole_pages opened (pf_cdb 15)
           (bytes (header_only ++ [0x55; 200; 7])) 15
           (mkOutcome true (SetStatusCode STATUS_NOERROR opened)
                      [Read 9; Read 10; Read 11; Read 12;
                       PrintUnknownPage "U"; Read 13])).
  - intros p Hp.
    change (pages (bytes (header_only ++ [0x55; 200; 7])) 15) with [12] in Hp.
    destruct Hp as [<-|[]]. split; [lia|]. intros H. discriminate H.
  - reflexivity.
Defined.
